(** * gogit: a shallow embedding of [git.go] and its specification

    The Go package [gogit] wraps the [git] command line tool: a [Repo]
    handle shells out, then parses the text the tool prints.  This file
    embeds the package in Rocq and proves the properties its
    specification states about it.

    Modelling conventions
    - A Go [string] is a sequence of bytes: [String.string], whose
      characters are the 8-bit [ascii].
    - A Go [int] is a [Z].  The only integers of the package are lengths,
      indices and a counter that stops at 2, far from the 64-bit bounds.
    - The operating system and the [git] executable are a collaborator,
      the class [Host]; every command that is started is recorded in a
      trace, so that "no pull is issued" is a statement about the trace.
    - A method has a pointer receiver [r *Repo]: the handle lives in the
      state ([self]) and every method is a state transformer, so that a
      method that assigned to a field would show in the final state.
    - A run-time panic (slice bounds, index out of range) is the outcome
      [Panics]; the [error] results of Go are ordinary values.
    - The go-kit logger is a write-only side channel whose results the
      source discards ([_ = level.Debug(...).Log(...)]); it is left out,
      and so is the [logger] field.  [fmt.Println] writes to [stdout]. *)

From Stdlib Require Import String Ascii List ZArith Lia Bool DecimalString.
Import ListNotations.
Local Open Scope string_scope.
Local Open Scope Z_scope.

(** ** Outcomes: a Go expression evaluates or panics *)

Inductive outcome (A : Type) : Type :=
| Returns (a : A)
| Panics.

Arguments Returns {A} a.
Arguments Panics {A}.

(** ** The parts of Go's [strings] package the source calls *)

Module strings.

(** The line feed (a Go literal writes it backslash-n) and the tab. *)
Definition nl : ascii := "010"%char.
Definition tab : ascii := "009"%char.

(** [len(s)] *)
Definition len (s : string) : Z := Z.of_nat (String.length s).

(** [strings.HasPrefix(s, prefix)] *)
Fixpoint HasPrefix (s prefix : string) {struct prefix} : bool :=
  match prefix with
  | EmptyString => true
  | String p prefix' =>
      match s with
      | EmptyString => false
      | String c s' => Ascii.eqb c p && HasPrefix s' prefix'
      end
  end.

(** [s[n:]] and [s[:n]] for an [n] known to be within bounds. *)
Fixpoint drop (n : nat) (s : string) : string :=
  match n, s with
  | O, _ => s
  | S _, EmptyString => EmptyString
  | S n', String _ s' => drop n' s'
  end.

Fixpoint take (n : nat) (s : string) : string :=
  match n, s with
  | O, _ => EmptyString
  | S _, EmptyString => EmptyString
  | S n', String c s' => String c (take n' s')
  end.

(** [strings.HasSuffix(s, suffix)]:
    [len(s) >= len(suffix) && s[len(s)-len(suffix):] == suffix] *)
Definition HasSuffix (s suffix : string) : bool :=
  (String.length suffix <=? String.length s)%nat
  && String.eqb (drop (String.length s - String.length suffix) s) suffix.

(** [strings.TrimSuffix(s, suffix)] *)
Definition TrimSuffix (s suffix : string) : string :=
  if HasSuffix s suffix
  then take (String.length s - String.length suffix) s
  else s.

(** [strings.Index(s, substr)]: the index of the first instance of
    [substr] in [s], or -1. *)
Fixpoint Index (s substr : string) : Z :=
  match s with
  | EmptyString => if HasPrefix EmptyString substr then 0 else -1
  | String _ s' =>
      if HasPrefix s substr then 0
      else let i := Index s' substr in
           if i <? 0 then -1 else i + 1
  end.

(** [strings.Contains(s, substr)] is [Index(s, substr) >= 0]. *)
Definition Contains (s substr : string) : bool := 0 <=? Index s substr.

(** [strings.Split(s, sep)] for a separator of one byte, which is all
    the source passes (a slash and a line feed): the pieces of [s]
    between the occurrences of [sep]; never the empty slice. *)
Fixpoint Split (s : string) (sep : ascii) : list string :=
  match s with
  | EmptyString => [EmptyString]
  | String c s' =>
      if Ascii.eqb c sep then EmptyString :: Split s' sep
      else match Split s' sep with
           | [] => [String c EmptyString]
           | piece :: pieces => String c piece :: pieces
           end
  end.

(** [strings.Join(elems, sep)] *)
Definition Join (elems : list string) (sep : string) : string :=
  String.concat sep elems.

(** White space as [unicode.IsSpace] sees it.  [Fields] decodes UTF-8;
    a white-space rune is one of the six ASCII bytes below or one of
    the code points U+0085, U+00A0, U+1680, U+2000..U+200A, U+2028,
    U+2029, U+202F, U+205F, U+3000.  Each of the latter is encoded with
    a lead byte (C2, E1, E2, E3), which is never a continuation byte of
    another rune, so looking for these byte sequences at every byte
    finds exactly the white-space runes of the decoded string. *)
Definition asciiSpace (c : ascii) : bool :=
  match nat_of_ascii c with
  | 9 | 10 | 11 | 12 | 13 | 32 => true
  | _ => false
  end%nat.

Definition space2 (b0 b1 : ascii) : bool :=
  match nat_of_ascii b0, nat_of_ascii b1 with
  | 194, 133 | 194, 160 => true
  | _, _ => false
  end%nat.

Definition space3 (b0 b1 b2 : ascii) : bool :=
  let n2 := nat_of_ascii b2 in
  match nat_of_ascii b0, nat_of_ascii b1 with
  | 225, 154 => (n2 =? 128)%nat
  | 226, 128 => ((128 <=? n2) && (n2 <=? 138) || (n2 =? 168) || (n2 =? 169)
                 || (n2 =? 175))%nat
  | 226, 129 => (n2 =? 159)%nat
  | 227, 128 => (n2 =? 128)%nat
  | _, _ => false
  end%nat.

(** The width in bytes of the white-space rune [s] starts with, 0 if it
    starts with none. *)
Definition spaceWidth (s : string) : nat :=
  match s with
  | EmptyString => 0
  | String b0 s1 =>
      if asciiSpace b0 then 1
      else match s1 with
           | EmptyString => 0
           | String b1 s2 =>
               if space2 b0 b1 then 2
               else match s2 with
                    | EmptyString => 0
                    | String b2 _ => if space3 b0 b1 b2 then 3 else 0
                    end
           end
  end%nat.

(** [strings.Fields(s)]: the maximal runs of non-space bytes.  [skip]
    counts the bytes of a white-space rune still to pass over. *)
Definition addByte (c : ascii) (fields : list string) (inField : bool)
  : list string :=
  if inField
  then match fields with
       | [] => [String c EmptyString]
       | f :: fs => String c f :: fs
       end
  else String c EmptyString :: fields.

(** [scanFields skip s] returns the fields of [s] and whether [s]
    starts inside a field (its first field then continues the field of
    the caller). *)
Fixpoint scanFields (skip : nat) (s : string) : list string * bool :=
  match s with
  | EmptyString => ([], false)
  | String c s' =>
      match skip with
      | S k => (fst (scanFields k s'), false)
      | O =>
          match spaceWidth s with
          | S w => (fst (scanFields w s'), false)
          | O => let '(fields, inField) := scanFields O s' in
                 (addByte c fields inField, true)
          end
      end
  end.

Definition Fields (s : string) : list string := fst (scanFields O s).

End strings.

(** ** Slices: [s[lo:]], [s[:hi]], [xs[lo:]] and [xs[i]] panic out of range *)

Definition sliceFrom (s : string) (lo : Z) : outcome string :=
  if (0 <=? lo) && (lo <=? strings.len s)
  then Returns (strings.drop (Z.to_nat lo) s)
  else Panics.

Definition sliceTo (s : string) (hi : Z) : outcome string :=
  if (0 <=? hi) && (hi <=? strings.len s)
  then Returns (strings.take (Z.to_nat hi) s)
  else Panics.

Definition listFrom {A : Type} (xs : list A) (lo : Z) : outcome (list A) :=
  if (0 <=? lo) && (lo <=? Z.of_nat (List.length xs))
  then Returns (List.skipn (Z.to_nat lo) xs)
  else Panics.

Definition index {A : Type} (xs : list A) (i : Z) : outcome A :=
  if 0 <=? i
  then match List.nth_error xs (Z.to_nat i) with
       | Some x => Returns x
       | None => Panics
       end
  else Panics.

(** ** Errors

    [hostError] stands for the errors the packages [os] and [os/exec]
    return (its flag is what [os.IsNotExist] reads); the other two are
    the constructors of [github.com/pkg/errors]. *)

Inductive error : Type :=
| hostError (notExist : bool) (text : string)
| errorsNew (msg : string)
| withMessage (cause : error) (msg : string).

(** [errors.Wrap(err, msg)] is [nil] when [err] is [nil]. *)
Definition errorsWrap (err : option error) (msg : string) : option error :=
  match err with
  | None => None
  | Some e => Some (withMessage e msg)
  end.

(** [os.IsNotExist(err)] *)
Definition IsNotExist (err : option error) : bool :=
  match err with
  | Some (hostError true _) => true
  | _ => false
  end.

(** ** The data model of [git.go] *)

Record Repo : Type := {
  URL : string;
  Name : string;
  WorkDir : string;
  RepoDir : string
}.

Record GitOpts : Type := {
  Rebase : bool;
  CloneDir : string
}.

Definition ModType : Type := Z.
Definition StatNew : ModType := 0.
Definition StatModified : ModType := 1.
Definition StatDeleted : ModType := 2.

Record DiffStat : Type := {
  Stat : ModType;
  Filename : string
}.

Definition SetOptFunc : Type := GitOpts -> GitOpts.

Definition SetOptRebase : SetOptFunc :=
  fun o => {| Rebase := true; CloneDir := CloneDir o |}.

Definition SetCloneDir (s : string) : SetOptFunc :=
  fun o => {| Rebase := Rebase o; CloneDir := s |}.

Definition getOpts (optSetters : list SetOptFunc) : GitOpts :=
  List.fold_left (fun opts optSetter => optSetter opts) optSetters
                 {| Rebase := false; CloneDir := "" |}.

(** [statMap], in the order it is written. *)
Definition statMap : list (string * ModType) :=
  [("A", StatNew); ("M", StatModified); ("D", StatDeleted)].

Fixpoint lookup (m : list (string * ModType)) (k : string) : option ModType :=
  match m with
  | [] => None
  | (k', v) :: m' => if String.eqb k' k then Some v else lookup m' k
  end.

(** ** The host: file system and processes

    A command is the program, its arguments and the directory it runs in
    ([exec.Command(name, args...)] with [cmd.Dir]).  [CombinedOutput]
    returns the text the process wrote and an error that is [nil] exactly
    when the process ran and left with status 0; so, after
    [out, err := cmd.CombinedOutput()], the test
    [err != nil || !cmd.ProcessState.Success()] is the test [err != nil].
    [path_Join] is [path.Join] of two elements. *)

Record Cmd : Type := {
  cmdName : string;
  cmdArgs : list string;
  cmdDir : string
}.

Class Host : Type := {
  World : Type;
  os_Stat : World -> string -> option error;
  CombinedOutput : World -> Cmd -> (string * option error) * World;
  path_Join : string -> string -> string
}.

Section Model.

Context {host : Host}.

(** What the program can observe and change outside the handle. *)
Record Sys : Type := {
  world : World;
  trace : list Cmd;
  stdout : list string
}.

(** The heap holds the one [Repo] the receiver points to. *)
Record State : Type := {
  self : Repo;
  sys : Sys
}.

Definition M (A : Type) : Type := State -> outcome A * State.

Definition ret {A : Type} (a : A) : M A := fun st => (Returns a, st).

Definition bind {A B : Type} (m : M A) (k : A -> M B) : M B :=
  fun st =>
    match m st with
    | (Returns a, st') => k a st'
    | (Panics, st') => (Panics, st')
    end.

Definition lift {A : Type} (o : outcome A) : M A := fun st => (o, st).

(** [r.f] for a field [f] of the receiver. *)
Definition field {A : Type} (f : Repo -> A) : M A :=
  fun st => (Returns (f (self st)), st).

(** [_, err := os.Stat(name)] *)
Definition osStat (name : string) : M (option error) :=
  fun st => (Returns (os_Stat (world (sys st)) name), st).

(** The command [git args...] run in [dir]. *)
Definition gitIn (dir : string) (args : list string) : Cmd :=
  {| cmdName := "git"; cmdArgs := args; cmdDir := dir |}.

(** The state once the command [c] has run and left the world [w]. *)
Definition ran (st : State) (c : Cmd) (w : World) : State :=
  {| self := self st;
     sys := {| world := w;
               trace := trace (sys st) ++ [c];
               stdout := stdout (sys st) |} |}.

(** [cmd := exec.Command("git", args...); cmd.Dir = dir;
    out, err := cmd.CombinedOutput()] *)
Definition gitCommand (dir : string) (args : list string)
  : M (string * option error) :=
  fun st =>
    let c := gitIn dir args in
    let '(res, w) := CombinedOutput (world (sys st)) c in
    (Returns res, ran st c w).

(** [fmt.Println(a, b)]: the operands separated by a space, then a
    line feed. *)
Definition printed (text : string) (st : State) : State :=
  {| self := self st;
     sys := {| world := world (sys st);
               trace := trace (sys st);
               stdout := stdout (sys st) ++ [text] |} |}.

Definition Println (a b : string) : M unit :=
  fun st => (Returns tt, printed (a ++ " " ++ b ++ String strings.nl "") st).

End Model.

Declare Scope go_scope.
Delimit Scope go_scope with go.
Notation "x <- m ;; k" := (bind m (fun x => k))
  (at level 61, m at next level, right associativity) : go_scope.
Notation "' pat <- m ;; k" := (bind m (fun x => match x with pat => k end))
  (at level 61, pat pattern, m at next level, right associativity) : go_scope.
Notation "m ;; k" := (bind m (fun _ => k))
  (at level 61, right associativity) : go_scope.

Local Open Scope go_scope.

(** ** The operations of [git.go] *)

Section Operations.

Context {host : Host}.

(** [itoa] prints an [int] the way [fmt.Println] does. *)
Definition itoa (n : Z) : string := NilZero.string_of_int (Z.to_int n).

Definition space : string := " ".
Definition newline : string := String strings.nl "".

(** [func (r *Repo) doGit(args ...string) (string, error)] *)
Definition doGit (args : list string) : M (string * option error) :=
  workDir <- field WorkDir ;;
  _ <- osStat workDir ;;
  repoDir <- field RepoDir ;;
  '(out, err) <- gitCommand repoDir args ;;
  match err with
  | Some _ =>
      name <- field Name ;;
      ret ("",
           errorsWrap err
             ("failed to run command 'git " ++ strings.Join args space
              ++ "' on repo " ++ name ++ ": " ++ out))
  | None => ret (out, None)
  end.

(** [func (r *Repo) Clone() error] *)
Definition Clone : M (option error) :=
  workDir <- field WorkDir ;;
  err <- osStat workDir ;;
  match err with
  | Some _ =>
      if IsNotExist err
      then ret (Some (errorsNew "parent dir does not exist"))
      else ret (errorsWrap err "failed to stat parent dir")
  | None =>
      url <- field URL ;;
      repoDir <- field RepoDir ;;
      workDir <- field WorkDir ;;
      '(out, err) <- gitCommand workDir ["clone"; url; repoDir] ;;
      match err with
      | Some _ => ret (errorsWrap err ("failed to clone repo: " ++ out))
      | None =>
          url <- field URL ;;
          '(_, err) <- doGit ["remote"; "set-url"; "origin"; url] ;;
          ret err
      end
  end.

(** [func (r *Repo) Pull(options ...SetOptFunc) error] *)
Definition Pull (options : list SetOptFunc) : M (option error) :=
  let opts := getOpts options in
  let cmd := ["pull"] in
  let cmd := if Rebase opts then (cmd ++ ["--rebase"])%list else cmd in
  '(_, err) <- doGit cmd ;;
  ret err.

(** [func (r *Repo) IsClean() bool] *)
Definition IsClean : M bool :=
  '(_, err) <- doGit ["fetch"] ;;
  match err with
  | Some _ => ret false
  | None =>
      '(out, err) <- doGit ["status"] ;;
      match err with
      | Some _ => ret false
      | None =>
          if strings.Contains out "up-to-date"
             && strings.Contains out "working directory clean"
          then ret true
          else ret false
      end
  end.

(** [func (r *Repo) CloneOrPull() error] *)
Definition CloneOrPull : M (option error) :=
  repoDir <- field RepoDir ;;
  err <- osStat (path_Join repoDir ".git") ;;
  if IsNotExist err
  then Clone
  else
    clean <- IsClean ;;
    if negb clean
    then Pull [SetOptRebase]
    else ret None.

(** [func (r *Repo) Commit(msg string) error] *)
Definition Commit (msg : string) : M (option error) :=
  '(_, err) <- doGit ["commit"; "-m"; msg] ;;
  ret err.

(** [func (r *Repo) Push() error] *)
Definition Push : M (option error) :=
  '(_, err) <- doGit ["push"] ;;
  ret err.

(** [func (r *Repo) Add(pattern string) error] *)
Definition Add (pattern : string) : M (option error) :=
  '(_, err) <- doGit ["add"; pattern] ;;
  ret err.

(** [func (r *Repo) AddCommitPush(msg string) error] *)
Definition AddCommitPush (msg : string) : M (option error) :=
  err <- Add "." ;;
  match err with
  | Some _ => ret err
  | None =>
      err <- Commit msg ;;
      match err with
      | Some _ => ret err
      | None => Push
      end
  end.

(** [func (r *Repo) Checkout(b string) error] *)
Definition Checkout (b : string) : M (option error) :=
  '(_, err) <- doGit ["checkout"; b] ;;
  ret err.

(** The loop of [Branch]: the first line that starts with a star
    decides; [None] when the loop runs to its end. *)
Fixpoint branchLoop (lines : list string) : outcome (option string) :=
  match lines with
  | [] => Returns None
  | line :: lines' =>
      if strings.HasPrefix line "*"
      then match sliceFrom line 2 with
           | Returns b => Returns (Some b)
           | Panics => Panics
           end
      else branchLoop lines'
  end.

(** [func (r *Repo) Branch() (string, error)] *)
Definition Branch : M (string * option error) :=
  '(out, err) <- doGit ["branch"] ;;
  match err with
  | Some _ => ret ("", errorsWrap err "failed to get branche info")
  | None =>
      let lines := strings.Split out strings.nl in
      found <- lift (branchLoop lines) ;;
      match found with
      | Some b => ret (b, None)
      | None => ret ("", Some (errorsNew "unexpected output from git command"))
      end
  end.

(** [func (r *Repo) CurrentCommit() (string, error)] *)
Definition CurrentCommit : M (string * option error) :=
  '(out, err) <- doGit ["rev-parse"; "HEAD"] ;;
  match err with
  | Some _ => ret ("", err)
  | None => ret (strings.TrimSuffix out newline, None)
  end.

(** The loop of [DiffStatus], with [diffs] as its accumulator. *)
Fixpoint diffLoop (lines : list string) (diffs : list DiffStat)
  : outcome (list DiffStat) :=
  match lines with
  | [] => Returns diffs
  | line :: lines' =>
      let fields := strings.Fields line in
      if Z.of_nat (List.length fields) =? 2
      then match index fields 1 with
           | Panics => Panics
           | Returns filename =>
               match index fields 0 with
               | Panics => Panics
               | Returns code =>
                   match lookup statMap code with
                   | None => diffLoop lines' diffs
                   | Some stat =>
                       diffLoop lines'
                         (diffs ++ [{| Stat := stat; Filename := filename |}])%list
                   end
               end
           end
      else diffLoop lines' diffs
  end.

(** [func (r *Repo) DiffStatus(c1, c2 string) ([]*DiffStat, error)] *)
Definition DiffStatus (c1 c2 : string) : M (list DiffStat * option error) :=
  '(out, err) <- doGit ["diff"; "--name-status"; c1; c2] ;;
  match err with
  | Some _ => ret ([], err)
  | None =>
      diffs <- lift (diffLoop (strings.Split out strings.nl) []) ;;
      ret (diffs, err)
  end.

(** [func (r *Repo) ShowForCommit(commit, path string) (string, error)];
    [fmt.Sprintf("%s:%s", commit, path)] is the two joined by a colon. *)
Definition ShowForCommit (commit path : string) : M (string * option error) :=
  doGit ["show"; commit ++ ":" ++ path].

(** The loop of [ShowDeletedFile]; it returns the final [commit]. *)
Fixpoint historyLoop (lines : list string) (commitID : Z) (commit : string)
  : M string :=
  match lines with
  | [] => ret commit
  | line :: lines' =>
      if strings.HasPrefix line "commit"
      then
        let commitID := commitID + 1 in
        Println "commitID: " (itoa commitID) ;;
        if commitID =? 2
        then
          commit <- lift (sliceFrom line (strings.Index line space + 1)) ;;
          Println "Second commit: " commit ;;
          ret commit
        else historyLoop lines' commitID commit
      else historyLoop lines' commitID commit
  end.

(** [func (r *Repo) ShowDeletedFile(path string) (string, error)] *)
Definition ShowDeletedFile (path : string) : M (string * option error) :=
  '(out, err) <- doGit ["log"; "--full-history"; "-2"; "--"; path] ;;
  match err with
  | Some _ => ret ("", err)
  | None =>
      Println "History: " out ;;
      commit <- historyLoop (strings.Split out strings.nl) 0 "" ;;
      ShowForCommit commit path
  end.

(** [func (r *Repo) CommitAuthor(commit string) (string, error)] *)
Definition CommitAuthor (commit : string) : M (string * option error) :=
  '(out, err) <- doGit ["log"; "--format='%ae'"; commit ++ "^!"] ;;
  match err with
  | Some _ =>
      ret ("", errorsWrap err ("error retrieving author for commit " ++ commit))
  | None => ret (out, None)
  end.

(** Lines 61 to 65 of [New]: the name of the repository from its URL. *)
Definition repoName (url : string) : outcome string :=
  let parts := strings.Split url "/"%char in
  match listFrom parts (Z.of_nat (List.length parts) - 1) with
  | Panics => Panics
  | Returns tail =>
      match index tail 0 with
      | Panics => Panics
      | Returns repoName =>
          if strings.HasSuffix repoName ".git"
          then sliceTo repoName (strings.len repoName - 4)
          else Returns repoName
      end
  end.

(** [func New(url, branch, workDir string, logger log.Logger,
    options ...SetOptFunc)], which returns a pointer to the new [Repo]
    and an [error].  The handle is allocated,
    the methods run on it, and the caller receives it or [nil]. *)
Definition New (url branch workDir : string) (options : list SetOptFunc)
  (s : Sys) : outcome (option Repo * option error) * Sys :=
  let opts := getOpts options in
  match repoName url with
  | Panics => (Panics, s)
  | Returns name =>
      let repo := {| URL := url; WorkDir := workDir; Name := name;
                     RepoDir := "" |} in
      let repo :=
        if negb (String.eqb (CloneDir opts) "")
        then {| URL := URL repo; WorkDir := WorkDir repo; Name := Name repo;
                RepoDir := path_Join workDir (CloneDir opts) |}
        else {| URL := URL repo; WorkDir := WorkDir repo; Name := Name repo;
                RepoDir := path_Join workDir (Name repo) |} in
      let body : M (option Repo * option error) :=
        err <- CloneOrPull ;;
        match err with
        | Some _ => ret (None, err)
        | None =>
            '(currentBranch, err) <- Branch ;;
            match err with
            | Some _ => ret (None, err)
            | None =>
                if negb (String.eqb currentBranch branch)
                then
                  err <- Checkout branch ;;
                  match err with
                  | Some _ => ret (None, err)
                  | None => r <- field id ;; ret (Some r, None)
                  end
                else r <- field id ;; ret (Some r, None)
            end
        end in
      let '(res, st) := body {| self := repo; sys := s |} in
      (res, sys st)
  end.

End Operations.

(** ** A scripted host, for running the operations on concrete inputs

    The fake file system is the list of the paths that exist; the fake
    executor answers the commands, in order, with the scripted replies
    and fails once the script is used up.  Its [path_Join] is [path.Join]
    on the clean paths of the examples. *)

Module Scripted.

Record Script : Type := {
  existing : list string;
  replies : list (string * option error)
}.

Definition noSuchFile : error := hostError true "no such file or directory".
Definition exitStatus1 : error := hostError false "exit status 1".

Definition stat (w : Script) (name : string) : option error :=
  if List.existsb (String.eqb name) (existing w) then None
  else Some noSuchFile.

Definition run (w : Script) (c : Cmd) : (string * option error) * Script :=
  match replies w with
  | [] => (("", Some exitStatus1), w)
  | reply :: rest => (reply, {| existing := existing w; replies := rest |})
  end.

(** [path.Join] drops an empty element and puts a slash between the
    others. *)
Definition join2 (dir name : string) : string :=
  if String.eqb name "" then dir
  else if String.eqb dir "" then name
  else dir ++ "/" ++ name.

Definition host : Host := {|
  World := Script;
  os_Stat := stat;
  CombinedOutput := run;
  path_Join := join2
|}.

(** The state of a handle for [url], named [name], under [/work], with
    the given script and nothing run yet. *)
Definition boot (files : list string) (script : list (string * option error))
  : @Sys host :=
  {| world := {| existing := files; replies := script |} : @World host;
     trace := [];
     stdout := [] |}.

Definition handle : Repo :=
  {| URL := "https://example.org/team/tool.git";
     Name := "tool";
     WorkDir := "/work";
     RepoDir := "/work/tool" |}.

Definition start (files : list string) (script : list (string * option error))
  : @State host :=
  {| self := handle; sys := boot files script |}.

Definition ok (out : string) : string * option error := (out, None).

(** [lines ls] is the text whose lines are [ls], each ended by a line
    feed. *)
Fixpoint lines (ls : list string) : string :=
  match ls with
  | [] => ""
  | l :: ls' => l ++ String strings.nl (lines ls')
  end.

(** A tab-separated line of a name-status diff. *)
Definition entry (code name : string) : string :=
  code ++ String strings.tab name.

Definition cleanStatus : string :=
  lines ["On branch main";
         "Your branch is up-to-date with 'origin/main'.";
         "nothing to commit, working directory clean"].

Definition dirtyStatus : string :=
  lines ["On branch main";
         "Your branch is behind 'origin/main' by 2 commits."].

(** No checkout yet: the parent directory is all there is. *)
Definition fresh : @State host :=
  start ["/work"] [ok "Cloning into 'tool'..."; ok ""].

(** A checkout that is behind its remote. *)
Definition stale : @State host :=
  start ["/work"; "/work/tool/.git"] [ok ""; ok dirtyStatus; ok "rebased"].

(** A checkout that is clean. *)
Definition current : @State host :=
  start ["/work"; "/work/tool/.git"] [ok ""; ok cleanStatus].

(** [git branch] printing a lone star. *)
Definition loneStar : @State host :=
  start ["/work"] [ok (lines ["  develop"; "*"])].

(** [git branch] printing the listing of the specification. *)
Definition listing : @State host :=
  start ["/work"] [ok (lines ["  develop"; "* main"; "  feature/x"])].

(** [git rev-parse HEAD] printing an identifier between spaces and
    followed by two line feeds. *)
Definition revision : @State host :=
  start ["/work"] [ok (lines [" 4f2a c1 "; ""])].

(** The diff of the specification. *)
Definition diffText : string :=
  lines [entry "A" "new.txt"; entry "M" "old.txt"; entry "D" "gone.txt";
         entry "R100" "renamed.txt"].

Definition diffed : @State host := start ["/work"] [ok diffText].

(** The history of the specification. *)
Definition historyText : string :=
  lines ["commit abc123"; "Author: a <a@example.org>"; "";
         "    remove f.txt"; ""; "commit def456";
         "Author: a <a@example.org>"].

Definition logged : @State host :=
  start ["/work"] [ok historyText; ok "the content"].

(** A history whose second line starting with [commit] has no space. *)
Definition oddHistory : string :=
  lines ["commit abc123"; "commitdef456"; "commit 789abc"].

Definition oddLogged : @State host :=
  start ["/work"] [ok oddHistory; ok "the content"].

(** A clean checkout in the parent directory itself, on branch main:
    what [New] meets for the empty URL. *)
Definition bare : @Sys host :=
  boot ["/work"; "/work/.git"]
       [ok ""; ok cleanStatus; ok (lines ["* main"])].

(** A checkout whose remote cannot be reached. *)
Definition offline : @State host :=
  start ["/work"; "/work/tool/.git"]
        [(("fatal: unable to access the remote", Some exitStatus1))].

(** A reply of a command that failed. *)
Definition failing (out : string) : string * option error :=
  (out, Some exitStatus1).

Definition toolURL : string := "https://example.org/team/tool.git".

(** A clean checkout of the tool that is on branch develop; the checkout
    of another branch will succeed. *)
Definition onDevelop : @Sys host :=
  boot ["/work"; "/work/tool/.git"]
       [ok ""; ok cleanStatus; ok (lines ["* develop"; "  main"]);
        ok "Switched to branch 'main'"].

(** A checkout that is behind and whose pull fails. *)
Definition conflicting : @Sys host :=
  boot ["/work"; "/work/tool/.git"]
       [ok ""; ok dirtyStatus; failing "CONFLICT (content)"].

(** Nothing cloned yet; clone, set-url and branch listing will succeed. *)
Definition empty : @Sys host :=
  boot ["/work"] [ok "Cloning into 'tool'..."; ok ""; ok (lines ["* main"])].

(** A clean checkout, on main, in the directory [copy]. *)
Definition copied : @Sys host :=
  boot ["/work"; "/work/copy/.git"]
       [ok ""; ok cleanStatus; ok (lines ["* main"])].

(** A checkout where the add succeeds and the commit fails. *)
Definition nothingToCommit : @State host :=
  start ["/work"] [ok ""; failing "nothing to commit, working tree clean"].

(** A directory in which [git log] fails. *)
Definition unreadable : @State host :=
  start ["/work"] [failing "fatal: not a git repository"].

(** No parent directory. *)
Definition orphan : @State host := start [] [].

(** A history with one commit only. *)
Definition shortLogged : @State host :=
  start ["/work"] [ok (lines ["commit abc123"; "Author: a <a@example.org>"]);
                   failing "fatal: invalid object name"].

(** [git branch] printing a starred line with no space after the star. *)
Definition glued : @State host :=
  start ["/work"] [ok (lines ["  develop"; "*main"; "* other"])].

(** [git branch] printing no starred line. *)
Definition unmarked : @State host :=
  start ["/work"] [ok (lines ["  develop"; "  main"])].

(** Three records and the state in which the diff prints their lines. *)
Definition threeRecords : list DiffStat :=
  [{| Stat := StatDeleted; Filename := "gone.txt" |};
   {| Stat := StatNew; Filename := "src/new.go" |};
   {| Stat := StatModified; Filename := "README" |}].

Definition rendered : @State host :=
  start ["/work"]
        [ok (lines [entry "D" "gone.txt"; entry "A" "src/new.go";
                    entry "M" "README"])].

End Scripted.

(** ** The vocabulary of the specification *)

(** The byte [c] occurs in [s]. *)
Fixpoint occurs (c : ascii) (s : string) : bool :=
  match s with
  | EmptyString => false
  | String c' s' => Ascii.eqb c' c || occurs c s'
  end.

(** [s] contains the substring [sub]. *)
Definition contains (s sub : string) : Prop :=
  exists before after, s = before ++ sub ++ after.

(** [seg] is the final segment of [url]: what follows its last slash, or
    all of it when it has none. *)
Definition lastSegment (url seg : string) : Prop :=
  occurs "/" seg = false
  /\ (url = seg \/ exists before, url = before ++ "/" ++ seg).

(** [rest] is what follows the first space of [line]. *)
Definition afterFirstSpace (line rest : string) : Prop :=
  exists before, occurs " " before = false /\ line = before ++ " " ++ rest.

(** The lines of [out] that start with [commit], in order. *)
Definition commitLines (out : string) : list string :=
  List.filter (fun line => strings.HasPrefix line "commit")
              (strings.Split out strings.nl).

(** A line of a name-status diff is accepted when it has exactly two
    fields and the first is one of the codes of [statMap]; the record it
    stands for. *)
Definition kindOf (code : string) : option ModType :=
  if String.eqb code "A" then Some StatNew
  else if String.eqb code "M" then Some StatModified
  else if String.eqb code "D" then Some StatDeleted
  else None.

Definition accepted (line : string) : option DiffStat :=
  match strings.Fields line with
  | [code; name] =>
      match kindOf code with
      | Some kind => Some {| Stat := kind; Filename := name |}
      | None => None
      end
  | _ => None
  end.

Definition isAccepted (line : string) : bool :=
  match accepted line with
  | Some _ => true
  | None => false
  end.

(** The handle [New] builds for a URL whose short name is [name]. *)
Definition handleFor {host : Host} (url workDir : string)
  (options : list SetOptFunc) (name : string) : Repo :=
  {| URL := url;
     Name := name;
     WorkDir := workDir;
     RepoDir := path_Join workDir
                  (if String.eqb (CloneDir (getOpts options)) "" then name
                   else CloneDir (getOpts options)) |}.

(** The records of the accepted lines, in the order of the lines. *)
Fixpoint records (lines : list string) : list DiffStat :=
  match lines with
  | [] => []
  | line :: lines' =>
      match accepted line with
      | Some d => d :: records lines'
      | None => records lines'
      end
  end.

(** Lines 79 to 94 of [New]: what runs once the handle is built. *)
Definition reconcile {host : Host} (branch : string) : M (option Repo * option error) :=
  err <- CloneOrPull ;;
  match err with
  | Some _ => ret (None, err)
  | None =>
      '(currentBranch, err) <- Branch ;;
      match err with
      | Some _ => ret (None, err)
      | None =>
          if negb (String.eqb currentBranch branch)
          then
            err <- Checkout branch ;;
            match err with
            | Some _ => ret (None, err)
            | None => r <- field id ;; ret (Some r, None)
            end
          else r <- field id ;; ret (Some r, None)
      end
  end.

(** C2 as the specification words it, at a path and a state: the
    identifier passed on is what follows the first space of the second
    line that starts with [commit]. *)
Definition takesAfterFirstSpace {host : Host} (path : string) (st : State)
  : Prop :=
  forall out st1 first second others,
    doGit ["log"; "--full-history"; "-2"; "--"; path] st
    = (Returns (out, None), st1) ->
    commitLines out = first :: second :: others ->
    exists id st2,
      afterFirstSpace second id
      /\ ShowDeletedFile path st = ShowForCommit id path st2.

(** C4 as the specification words it, at an input: [New] fails and runs
    no command. *)
Definition rejectsURL {host : Host} (url branch workDir : string)
  (options : list SetOptFunc) (s : Sys) : Prop :=
  exists e s',
    New url branch workDir options s = (Returns (None, Some e), s')
    /\ trace s' = trace s.

(** Two states that differ in what was printed at most. *)
Definition sameButStdout {host : Host} (st st' : State) : Prop :=
  self st' = self st
  /\ world (sys st') = world (sys st)
  /\ trace (sys st') = trace (sys st).

(** The operation [m] leaves the fields of its receiver as they are. *)
Definition preserves {host : Host} {A : Type} (m : M A) : Prop :=
  forall st, self (snd (m st)) = self st.

(** A command the handle [r] may start: [git], in the repository
    directory, or the clone, in the parent directory. *)
Definition ownCommand (r : Repo) (c : Cmd) : Prop :=
  cmdName c = "git"
  /\ (cmdDir c = RepoDir r
      \/ (cmdDir c = WorkDir r /\ cmdArgs c = ["clone"; URL r; RepoDir r])).

(** The operation [m] keeps its receiver, and what it adds to the trace
    are commands of the receiver. *)
Definition confined {host : Host} {A : Type} (m : M A) : Prop :=
  forall st,
    self (snd (m st)) = self st
    /\ exists cmds,
         trace (sys (snd (m st))) = (trace (sys st) ++ cmds)%list
         /\ List.Forall (ownCommand (self st)) cmds.

(** The operation [m] never panics. *)
Definition returns {host : Host} {A : Type} (m : M A) : Prop :=
  forall st, exists a st', m st = (Returns a, st').

(** The options a caller can write: the two setters of the package. *)
Inductive Setter : Type :=
| WithRebase
| WithCloneDir (dir : string).

Definition setter (o : Setter) : SetOptFunc :=
  match o with
  | WithRebase => SetOptRebase
  | WithCloneDir dir => SetCloneDir dir
  end.

Definition isRebase (o : Setter) : bool :=
  match o with
  | WithRebase => true
  | WithCloneDir _ => false
  end.

(** The directories the [WithCloneDir] setters of a list name, in order. *)
Fixpoint cloneDirs (os : list Setter) : list string :=
  match os with
  | [] => []
  | WithRebase :: os' => cloneDirs os'
  | WithCloneDir dir :: os' => dir :: cloneDirs os'
  end.

(** A byte that is ASCII and not white space. *)
Definition plainByte (c : ascii) : bool :=
  (nat_of_ascii c <? 128)%nat && negb (strings.asciiSpace c).

Fixpoint plain (s : string) : bool :=
  match s with
  | EmptyString => true
  | String c s' => plainByte c && plain s'
  end.


(** The code [git diff --name-status] prints for a kind of [statMap]. *)
Definition codeOf (kind : ModType) : string :=
  if kind =? StatNew then "A"
  else if kind =? StatModified then "M"
  else "D".

(** The text of a name-status diff for the records [ds]: a line for
    each, code, tab, file name, line feed. *)
Fixpoint render (ds : list DiffStat) : string :=
  match ds with
  | [] => ""
  | d :: ds' =>
      codeOf (Stat d) ++ String strings.tab (Filename d)
      ++ String strings.nl (render ds')
  end.

(** A record [git diff --name-status] can print and [DiffStatus] read
    back: a kind of [statMap] and a name, not empty, of plain bytes. *)
Definition printable (d : DiffStat) : Prop :=
  (Stat d = StatNew \/ Stat d = StatModified \/ Stat d = StatDeleted)
  /\ Filename d <> "" /\ plain (Filename d) = true.

Create HintDb frame.

(** ** Facts about strings *)

Module StringFacts.

Import strings.

Lemma append_nil_r (s : string) : s ++ "" = s.
Proof. induction s as [|c s IH]; simpl; [reflexivity | now rewrite IH]. Qed.

Lemma append_assoc (a b c : string) : (a ++ b) ++ c = a ++ (b ++ c).
Proof. induction a as [|x a IH]; simpl; [reflexivity | now rewrite IH]. Qed.

Lemma length_app (a b : string) :
  String.length (a ++ b) = (String.length a + String.length b)%nat.
Proof. induction a as [|x a IH]; simpl; [reflexivity | now rewrite IH]. Qed.

Lemma HasPrefix_app (p rest : string) : HasPrefix (p ++ rest) p = true.
Proof.
  induction p as [|c p IH]; simpl; [reflexivity|].
  now rewrite Ascii.eqb_refl, IH.
Qed.

Lemma HasPrefix_inv (s p : string) :
  HasPrefix s p = true -> exists rest, s = p ++ rest.
Proof.
  revert s; induction p as [|c p IH]; intros s H.
  - exists s. reflexivity.
  - destruct s as [|d s]; simpl in H; [discriminate|].
    apply andb_true_iff in H as [Hc Hp].
    apply Ascii.eqb_eq in Hc. subst d.
    destruct (IH _ Hp) as [rest ->]. exists rest. reflexivity.
Qed.

Lemma HasPrefix_iff (s p : string) :
  HasPrefix s p = true <-> exists rest, s = p ++ rest.
Proof.
  split; [apply HasPrefix_inv|].
  intros [rest ->]. apply HasPrefix_app.
Qed.

Lemma drop_app (a b : string) : drop (String.length a) (a ++ b) = b.
Proof. induction a as [|x a IH]; simpl; [reflexivity | exact IH]. Qed.

Lemma take_app (a b : string) : take (String.length a) (a ++ b) = a.
Proof. induction a as [|x a IH]; simpl; [reflexivity | now rewrite IH]. Qed.

Lemma take_drop (n : nat) (s : string) : take n s ++ drop n s = s.
Proof.
  revert s; induction n as [|n IH]; intros [|c s]; simpl; try reflexivity.
  now rewrite IH.
Qed.

Lemma HasSuffix_app (base suffix : string) :
  HasSuffix (base ++ suffix) suffix = true.
Proof.
  unfold HasSuffix. rewrite length_app.
  replace (String.length base + String.length suffix - String.length suffix)%nat
    with (String.length base) by lia.
  rewrite drop_app, String.eqb_refl, andb_true_r.
  apply Nat.leb_le. lia.
Qed.

Lemma HasSuffix_inv (s suffix : string) :
  HasSuffix s suffix = true ->
  s = take (String.length s - String.length suffix) s ++ suffix.
Proof.
  unfold HasSuffix. intro H.
  apply andb_true_iff in H as [_ H]. apply String.eqb_eq in H.
  set (n := (String.length s - String.length suffix)%nat) in *.
  rewrite <- H. symmetry. apply take_drop.
Qed.

Lemma HasSuffix_iff (s suffix : string) :
  HasSuffix s suffix = true <-> exists base, s = base ++ suffix.
Proof.
  split.
  - intro H. eexists. apply HasSuffix_inv. exact H.
  - intros [base ->]. apply HasSuffix_app.
Qed.

Lemma TrimSuffix_app (base suffix : string) :
  TrimSuffix (base ++ suffix) suffix = base.
Proof.
  unfold TrimSuffix. rewrite HasSuffix_app, length_app.
  replace (String.length base + String.length suffix - String.length suffix)%nat
    with (String.length base) by lia.
  apply take_app.
Qed.

Lemma TrimSuffix_other (s suffix : string) :
  (forall base, s <> base ++ suffix) -> TrimSuffix s suffix = s.
Proof.
  intro H. unfold TrimSuffix.
  destruct (HasSuffix s suffix) eqn:E; [|reflexivity].
  apply HasSuffix_iff in E as [base E]. now apply H in E.
Qed.

Lemma Index_found (s sub : string) :
  0 <= Index s sub <-> contains s sub.
Proof.
  induction s as [|c s IH]; simpl.
  - destruct (HasPrefix "" sub) eqn:E.
    + split; [intros _ | lia].
      apply HasPrefix_inv in E as [rest E].
      exists "", rest. exact E.
    + split; [lia|]. intros (p & q & H).
      destruct p; [|discriminate]. simpl in H.
      destruct sub; [discriminate E | discriminate H].
  - destruct (HasPrefix (String c s) sub) eqn:E.
    + split; [intros _ | lia].
      apply HasPrefix_inv in E as [rest E].
      exists "", rest. exact E.
    + destruct (Index s sub <? 0) eqn:L.
      * apply Z.ltb_lt in L. split; [lia|].
        intros (p & q & H). destruct p as [|d p]; simpl in H.
        -- rewrite H, HasPrefix_app in E. discriminate.
        -- injection H as _ H.
           assert (0 <= Index s sub) by (apply IH; now exists p, q). lia.
      * apply Z.ltb_ge in L. split; [|lia]. intros _.
        destruct (proj1 IH L) as (p & q & ->).
        exists (String c p), q. reflexivity.
Qed.

Lemma Contains_iff (s sub : string) :
  Contains s sub = true <-> contains s sub.
Proof.
  unfold Contains. rewrite Z.leb_le. apply Index_found.
Qed.

(** The index of the first space. *)
Lemma Index_first (c : ascii) (before rest : string) :
  occurs c before = false ->
  Index (before ++ String c rest) (String c "") = len before.
Proof.
  unfold len. induction before as [|d before IH]; intro H.
  - simpl. now rewrite Ascii.eqb_refl.
  - simpl in H. apply orb_false_iff in H as [Hd Hb].
    cbn [append Index HasPrefix]. rewrite Hd. cbn [andb].
    rewrite (IH Hb).
    destruct (Z.of_nat (String.length before) <? 0) eqn:L.
    + apply Z.ltb_lt in L. lia.
    + cbn [String.length]. lia.
Qed.

Lemma Index_absent (c : ascii) (s : string) :
  occurs c s = false -> Index s (String c "") = -1.
Proof.
  induction s as [|d s IH]; intro H; [reflexivity|].
  simpl in H. apply orb_false_iff in H as [Hd Hs].
  cbn [Index HasPrefix]. rewrite Hd. cbn [andb].
  rewrite (IH Hs). reflexivity.
Qed.

Lemma Split_cons (s : string) (sep : ascii) :
  exists piece pieces, Split s sep = piece :: pieces.
Proof.
  induction s as [|c s (p & ps & IH)]; simpl.
  - now exists "", [].
  - destruct (Ascii.eqb c sep); [now eexists _, _|].
    rewrite IH. now eexists _, _.
Qed.

Lemma occurs_app (c : ascii) (a b : string) :
  occurs c (a ++ String c b) = true.
Proof.
  induction a as [|d a IH]; simpl.
  - now rewrite Ascii.eqb_refl.
  - rewrite IH. apply orb_true_r.
Qed.

Lemma occurs_split (c : ascii) (s : string) :
  occurs c s = true ->
  exists before rest, occurs c before = false /\ s = before ++ String c rest.
Proof.
  induction s as [|d s IH]; simpl; [discriminate|].
  destruct (Ascii.eqb d c) eqn:E.
  - intros _. apply Ascii.eqb_eq in E. subst d. now exists "", s.
  - intro H. destruct (IH H) as (before & rest & Hb & ->).
    exists (String d before), rest. simpl. now rewrite E, Hb.
Qed.

Lemma drop_past (c : ascii) (a b : string) :
  drop (S (String.length a)) (a ++ String c b) = b.
Proof. induction a as [|x a IH]; [reflexivity | exact IH]. Qed.

(** What follows the last separator is determined. *)
Lemma tail_unique (c : ascii) (a1 a2 b1 b2 : string) :
  occurs c b1 = false -> occurs c b2 = false ->
  a1 ++ String c b1 = a2 ++ String c b2 -> b1 = b2.
Proof.
  intros H1 H2. revert a2.
  induction a1 as [|x a1 IH]; intros [|y a2] E; simpl in E.
  - now injection E.
  - injection E as _ E. rewrite E, occurs_app in H1. discriminate.
  - injection E as _ E. rewrite <- E, occurs_app in H2. discriminate.
  - injection E as _ E. now apply IH in E.
Qed.

(** The last piece of a split is the final segment; the split has one
    piece exactly when the separator does not occur. *)
Lemma Split_shape (s : string) (sep : ascii) :
  let pieces := Split s sep in
  let seg := List.last pieces "" in
  occurs sep seg = false
  /\ ((s = seg /\ pieces = [seg])
      \/ (exists before, s = before ++ String sep seg)
         /\ (2 <= List.length pieces)%nat).
Proof.
  induction s as [|c s IH]; cbn zeta.
  - split; [reflexivity | now left].
  - cbn zeta in IH. cbn [Split].
    destruct (Split_cons s sep) as (p & ps & E).
    rewrite E in IH |- *. destruct IH as [Hocc Hs].
    destruct (Ascii.eqb c sep) eqn:Ec.
    + apply Ascii.eqb_eq in Ec. subst c.
      change (List.last ("" :: p :: ps) "") with (List.last (p :: ps) "").
      split; [exact Hocc|]. right. split; [|simpl; lia].
      destruct Hs as [[Hs _] | [[before Hs] _]].
      * exists "". cbn [append]. now rewrite <- Hs.
      * exists (String sep before). cbn [append]. now rewrite <- Hs.
    + destruct Hs as [[Hs Hl] | [[before Hs] Hl]].
      * injection Hl as Hp Hps. subst ps. cbn [List.last] in *.
        cbn [occurs]. rewrite Ec, Hocc. split; [reflexivity|]. left.
        subst p. now split.
      * destruct ps as [|p' ps]; [simpl in Hl; lia|].
        change (List.last (String c p :: p' :: ps) "")
          with (List.last (p :: p' :: ps) "").
        split; [exact Hocc|]. right. split; [|simpl; lia].
        exists (String c before). cbn [append]. now rewrite <- Hs.
Qed.

Lemma Split_last (s : string) (sep : ascii) :
  let seg := List.last (Split s sep) "" in
  occurs sep seg = false
  /\ (s = seg \/ exists before, s = before ++ String sep seg).
Proof.
  destruct (Split_shape s sep) as [Hocc Hs]. split; [exact Hocc|].
  destruct Hs as [[Hs _] | [Hs _]]; [now left | now right].
Qed.

End StringFacts.

(** ** Facts about the operations *)

Section OperationFacts.

Context {host : Host}.

(** *** The command primitive *)

(** [doGit] never panics; it runs exactly one command, in [RepoDir]. *)
Lemma doGit_total (args : list string) (st : State) :
  exists res w,
    doGit args st = (Returns res, ran st (gitIn (RepoDir (self st)) args) w).
Proof.
  unfold doGit, bind, field, osStat, gitCommand, ret. cbn beta iota.
  destruct (CombinedOutput _ _) as [[out [e|]] w]; cbn; now eexists _, _.
Qed.

(** *** The receiver is left as it is *)

Lemma preserves_ret {A : Type} (a : A) : preserves (ret a).
Proof. intro st. reflexivity. Qed.

Lemma preserves_lift {A : Type} (o : outcome A) : preserves (lift o).
Proof. intro st. reflexivity. Qed.

Lemma preserves_field {A : Type} (f : Repo -> A) : preserves (field f).
Proof. intro st. reflexivity. Qed.

Lemma preserves_osStat (name : string) : preserves (osStat name).
Proof. intro st. reflexivity. Qed.

Lemma preserves_Println (a b : string) : preserves (Println a b).
Proof. intro st. reflexivity. Qed.

Lemma preserves_gitCommand (dir : string) (args : list string) :
  preserves (gitCommand dir args).
Proof.
  intro st. unfold gitCommand.
  destruct (CombinedOutput _ _) as [res w]. reflexivity.
Qed.

Lemma preserves_bind {A B : Type} (m : M A) (k : A -> M B) :
  preserves m -> (forall a, preserves (k a)) -> preserves (bind m k).
Proof.
  intros Hm Hk st. unfold bind. specialize (Hm st).
  destruct (m st) as [[a|] st1]; cbn in Hm |- *.
  - now rewrite Hk.
  - exact Hm.
Qed.

#[local] Hint Resolve preserves_ret preserves_lift preserves_field preserves_osStat
  preserves_Println preserves_gitCommand : frame.

Ltac frame :=
  repeat first
    [ progress auto with frame
    | apply preserves_bind; [|intro]
    | match goal with
      | |- preserves (match ?x with _ => _ end) => destruct x
      | |- preserves (if ?b then _ else _) => destruct b
      end ].

Lemma preserves_doGit (args : list string) : preserves (doGit args).
Proof. unfold doGit. frame. Qed.

#[local] Hint Resolve preserves_doGit : frame.

Lemma preserves_Clone : preserves Clone.
Proof. unfold Clone. frame. Qed.

Lemma preserves_Pull (options : list SetOptFunc) : preserves (Pull options).
Proof. unfold Pull. frame. Qed.

Lemma preserves_IsClean : preserves IsClean.
Proof. unfold IsClean. frame. Qed.

#[local] Hint Resolve preserves_Clone preserves_Pull preserves_IsClean : frame.

Lemma preserves_CloneOrPull : preserves CloneOrPull.
Proof. unfold CloneOrPull. frame. Qed.

Lemma preserves_Commit (msg : string) : preserves (Commit msg).
Proof. unfold Commit. frame. Qed.

Lemma preserves_Push : preserves Push.
Proof. unfold Push. frame. Qed.

Lemma preserves_Add (pattern : string) : preserves (Add pattern).
Proof. unfold Add. frame. Qed.

#[local] Hint Resolve preserves_CloneOrPull preserves_Commit preserves_Push
  preserves_Add : frame.

Lemma preserves_AddCommitPush (msg : string) : preserves (AddCommitPush msg).
Proof. unfold AddCommitPush. frame. Qed.

Lemma preserves_Checkout (b : string) : preserves (Checkout b).
Proof. unfold Checkout. frame. Qed.

Lemma preserves_Branch : preserves Branch.
Proof. unfold Branch. frame. Qed.

Lemma preserves_CurrentCommit : preserves CurrentCommit.
Proof. unfold CurrentCommit. frame. Qed.

Lemma preserves_DiffStatus (c1 c2 : string) : preserves (DiffStatus c1 c2).
Proof. unfold DiffStatus. frame. Qed.

Lemma preserves_ShowForCommit (commit path : string) :
  preserves (ShowForCommit commit path).
Proof. unfold ShowForCommit. frame. Qed.

Lemma preserves_historyLoop (lines : list string) (commitID : Z)
  (commit : string) : preserves (historyLoop lines commitID commit).
Proof.
  revert commitID commit.
  induction lines as [|line lines IH]; intros commitID commit; cbn [historyLoop].
  - frame.
  - destruct (strings.HasPrefix line "commit"); [|apply IH].
    apply preserves_bind; [frame | intros _].
    destruct (commitID + 1 =? 2); [frame | apply IH].
Qed.

#[local] Hint Resolve preserves_ShowForCommit preserves_historyLoop
  preserves_Checkout preserves_Branch : frame.

Lemma preserves_ShowDeletedFile (path : string) :
  preserves (ShowDeletedFile path).
Proof. unfold ShowDeletedFile. frame. Qed.

Lemma preserves_CommitAuthor (commit : string) :
  preserves (CommitAuthor commit).
Proof. unfold CommitAuthor. frame. Qed.

(** *** Reconciliation *)

(** [IsClean] never panics, and says what it ran. *)
Lemma IsClean_total (st : State) :
  exists clean st', IsClean st = (Returns clean, st').
Proof.
  unfold IsClean, bind, ret.
  destruct (doGit_total ["fetch"] st) as ([o1 [e1|]] & w1 & ->);
    cbv beta iota.
  - now eexists _, _.
  - destruct (doGit_total ["status"]
                (ran st (gitIn (RepoDir (self st)) ["fetch"]) w1))
      as ([o2 [e2|]] & w2 & ->); cbv beta iota.
    + now eexists _, _.
    + destruct (_ && _); now eexists _, _.
Qed.

Lemma IsClean_true_trace (st st' : State) :
  IsClean st = (Returns true, st') ->
  trace (sys st')
  = (trace (sys st)
     ++ [gitIn (RepoDir (self st)) ["fetch"];
         gitIn (RepoDir (self st)) ["status"]])%list.
Proof.
  unfold IsClean, bind, ret.
  destruct (doGit_total ["fetch"] st) as ([o1 [e1|]] & w1 & ->);
    cbv beta iota; [discriminate|].
  destruct (doGit_total ["status"]
              (ran st (gitIn (RepoDir (self st)) ["fetch"]) w1))
    as ([o2 [e2|]] & w2 & ->); cbv beta iota; [discriminate|].
  destruct (_ && _); [|discriminate].
  intros [= <-]. cbn. now rewrite <- app_assoc.
Qed.

Lemma Pull_rebase_trace (st : State) :
  trace (sys (snd (Pull [SetOptRebase] st)))
  = (trace (sys st) ++ [gitIn (RepoDir (self st)) ["pull"; "--rebase"]])%list.
Proof.
  unfold Pull, bind, ret.
  cbn [getOpts List.fold_left SetOptRebase Rebase app].
  destruct (doGit_total ["pull"; "--rebase"] st) as ([o e] & w & ->).
  reflexivity.
Qed.

Lemma Clone_trace (st : State) :
  os_Stat (world (sys st)) (WorkDir (self st)) = None ->
  exists rest,
    trace (sys (snd (Clone st)))
    = (trace (sys st)
       ++ gitIn (WorkDir (self st))
            ["clone"; URL (self st); RepoDir (self st)] :: rest)%list.
Proof.
  intro Hstat. unfold Clone, bind, field, osStat, gitCommand, ret.
  cbv beta iota. rewrite Hstat.
  destruct (CombinedOutput _ _) as [[out [e|]] w]; cbv beta iota.
  - now exists [].
  - match goal with
    | |- context [doGit ?a ?s] =>
        destruct (doGit_total a s) as ([o e] & w' & ->)
    end.
    cbn. rewrite <- app_assoc. now eexists.
Qed.

(** C1.  [CloneOrPull] clones when the [.git] entry of [RepoDir] does
    not exist ([Clone] is what runs, and with an existing parent
    directory its first command is [git clone URL RepoDir]).  When the
    entry is there and [IsClean] answers false, it is [Pull] with the
    rebase option that runs, and the command is [git pull --rebase].
    When the entry is there and [IsClean] answers true, the result is
    [nil] and the only commands run are the fetch and the status of
    [IsClean]: no clone and no pull. *)
Theorem CloneOrPull_decides (st : State) :
  let marker :=
    os_Stat (world (sys st)) (path_Join (RepoDir (self st)) ".git") in
  let dir := RepoDir (self st) in
  (IsNotExist marker = true ->
     CloneOrPull st = Clone st
     /\ (os_Stat (world (sys st)) (WorkDir (self st)) = None ->
         exists rest,
           trace (sys (snd (CloneOrPull st)))
           = (trace (sys st)
              ++ gitIn (WorkDir (self st)) ["clone"; URL (self st); dir]
                 :: rest)%list))
  /\ (IsNotExist marker = false ->
      forall st1, IsClean st = (Returns false, st1) ->
        CloneOrPull st = Pull [SetOptRebase] st1
        /\ trace (sys (snd (CloneOrPull st)))
           = (trace (sys st1) ++ [gitIn dir ["pull"; "--rebase"]])%list)
  /\ (IsNotExist marker = false ->
      forall st1, IsClean st = (Returns true, st1) ->
        CloneOrPull st = (Returns None, st1)
        /\ trace (sys st1)
           = (trace (sys st)
              ++ [gitIn dir ["fetch"]; gitIn dir ["status"]])%list).
Proof.
  cbn zeta.
  assert (E : CloneOrPull st
              = if IsNotExist (os_Stat (world (sys st))
                                 (path_Join (RepoDir (self st)) ".git"))
                then Clone st
                else match IsClean st with
                     | (Returns clean, st1) =>
                         if negb clean then Pull [SetOptRebase] st1
                         else (Returns None, st1)
                     | (Panics, st1) => (Panics, st1)
                     end).
  { unfold CloneOrPull, bind, field, osStat, ret. cbn beta iota.
    destruct (IsNotExist _); [reflexivity|].
    destruct (IsClean st) as [[[|]|] st1]; reflexivity. }
  rewrite E. split; [|split].
  - intros ->. split; [reflexivity|].
    intro Hstat. now apply Clone_trace.
  - intros -> st1 Hclean. rewrite Hclean. cbn [negb].
    split; [reflexivity|].
    rewrite Pull_rebase_trace.
    pose proof (preserves_IsClean st) as P.
    rewrite Hclean in P. cbn [snd] in P. now rewrite P.
  - intros -> st1 Hclean. rewrite Hclean. cbn [negb].
    split; [reflexivity|]. now apply IsClean_true_trace.
Qed.

(** C5.  [IsClean] returns a boolean and nothing else: it never panics
    and has no error result.  A failed fetch gives false, at once; a
    failed status gives false; and when both succeeded the answer is
    true exactly when the text of the status contains both
    [up-to-date] and [working directory clean].  So the answer is true
    exactly when the fetch succeeded, the status succeeded and its text
    contains both. *)
Theorem IsClean_swallows (st : State) :
  exists clean st',
    IsClean st = (Returns clean, st')
    /\ (forall out e st1,
          doGit ["fetch"] st = (Returns (out, Some e), st1) ->
          clean = false /\ st' = st1)
    /\ (forall out1 st1 out e st2,
          doGit ["fetch"] st = (Returns (out1, None), st1) ->
          doGit ["status"] st1 = (Returns (out, Some e), st2) ->
          clean = false /\ st' = st2)
    /\ (forall out1 st1 out st2,
          doGit ["fetch"] st = (Returns (out1, None), st1) ->
          doGit ["status"] st1 = (Returns (out, None), st2) ->
          st' = st2
          /\ (clean = true <->
              contains out "up-to-date"
              /\ contains out "working directory clean"))
    /\ (clean = true <->
        exists out1 st1 out st2,
          doGit ["fetch"] st = (Returns (out1, None), st1)
          /\ doGit ["status"] st1 = (Returns (out, None), st2)
          /\ contains out "up-to-date"
          /\ contains out "working directory clean").
Proof.
  unfold IsClean, bind, ret.
  destruct (doGit_total ["fetch"] st) as ([o1 [e1|]] & w1 & E1);
    rewrite E1; cbv beta iota.
  - eexists _, _. split; [reflexivity|].
    split; [intros out e st1 H; injection H as _ _ <-; now split|].
    split; [intros out1 st1 out e st2 H; discriminate H|].
    split; [intros out1 st1 out st2 H; discriminate H|].
    split; [discriminate|]. intros (? & ? & ? & ? & H & _). discriminate H.
  - destruct (doGit_total ["status"]
                (ran st (gitIn (RepoDir (self st)) ["fetch"]) w1))
      as ([o2 [e2|]] & w2 & E2); rewrite E2; cbv beta iota.
    + eexists _, _. split; [reflexivity|].
      split; [intros out e st1 H; discriminate H|].
      split; [intros out1 st1 out e st2 H1 H2; injection H1 as _ <-;
              rewrite E2 in H2; injection H2 as _ _ <-; now split|].
      split; [intros out1 st1 out st2 H1 H2; injection H1 as _ <-;
              rewrite E2 in H2; discriminate H2|].
      split; [discriminate|].
      intros (? & ? & ? & ? & H1 & H2 & _). injection H1 as _ <-.
      rewrite E2 in H2. discriminate H2.
    + assert (K : strings.Contains o2 "up-to-date"
                  && strings.Contains o2 "working directory clean" = true
                  <-> contains o2 "up-to-date"
                      /\ contains o2 "working directory clean").
      { rewrite andb_true_iff, !StringFacts.Contains_iff. reflexivity. }
      destruct (strings.Contains o2 "up-to-date"
                && strings.Contains o2 "working directory clean");
        (eexists _, _; split; [reflexivity|]);
        (split; [intros out e st1 H; discriminate H|]);
        (split; [intros out1 st1 out e st2 H1 H2; injection H1 as _ <-;
                 rewrite E2 in H2; discriminate H2|]);
        (split; [intros out1 st1 out st2 H1 H2; injection H1 as _ <-;
                 rewrite E2 in H2; injection H2 as <- <-;
                 split; [reflexivity | exact K]|]);
        rewrite K; (split;
          [ intros [H1 H2]; eexists o1, _, o2, _;
            split; [reflexivity|]; split; [exact E2|]; now split
          | intros (? & ? & out & ? & H1 & H2 & H3 & H4);
            injection H1 as _ <-; rewrite E2 in H2; injection H2 as <- _;
            now split ]).
Qed.

(** *** Introspection *)

(** C8.  On the text [out] of a successful [git rev-parse HEAD],
    [CurrentCommit] returns [out] without its final line feed when it
    ends with one, and [out] itself otherwise.  Only that one byte
    goes: what comes before it (leading and inner white space, earlier
    line feeds) is returned as it is. *)
Theorem CurrentCommit_trims (st st' : State) (out : string) :
  doGit ["rev-parse"; "HEAD"] st = (Returns (out, None), st') ->
  (forall body, out = body ++ newline ->
     CurrentCommit st = (Returns (body, None), st'))
  /\ ((forall body, out <> body ++ newline) ->
      CurrentCommit st = (Returns (out, None), st')).
Proof.
  intro E. unfold CurrentCommit, bind, ret. rewrite E. cbv beta iota.
  split.
  - intros body ->. now rewrite StringFacts.TrimSuffix_app.
  - intro H. now rewrite StringFacts.TrimSuffix_other.
Qed.

Lemma sliceFrom_two (a b : ascii) (s : string) :
  sliceFrom (String a (String b s)) 2 = Returns s.
Proof.
  unfold sliceFrom, strings.len. cbn [String.length].
  replace ((0 <=? 2) && (2 <=? Z.of_nat (S (S (String.length s)))))
    with true by (symmetry; apply andb_true_iff; split; apply Z.leb_le; lia).
  reflexivity.
Qed.

(** The loop of [Branch] on a marked line of two bytes or more. *)
Lemma branchLoop_marked (before : list string) (mark : ascii)
  (name : string) (after : list string) :
  (forall line, In line before -> strings.HasPrefix line "*" = false) ->
  branchLoop (before ++ String "*" (String mark name) :: after)
  = Returns (Some name).
Proof.
  intro H. induction before as [|l before IH]; cbn [app branchLoop].
  - cbn [strings.HasPrefix]. rewrite Ascii.eqb_refl. cbn [andb].
    now rewrite sliceFrom_two.
  - rewrite (H l) by now left.
    apply IH. intros line Hin. apply H. now right.
Qed.

(** The loop of [Branch] when no line is marked. *)
Lemma branchLoop_unmarked (lines : list string) :
  (forall line, In line lines -> strings.HasPrefix line "*" = false) ->
  branchLoop lines = Returns None.
Proof.
  intro H. induction lines as [|l lines IH]; cbn [branchLoop].
  - reflexivity.
  - rewrite (H l) by now left.
    apply IH. intros line Hin. apply H. now right.
Qed.

(** X21.  [Branch] returns what follows the first two bytes of the first
    marked line, when that line has them. *)
Lemma Branch_marked (st st' : State) (out : string) (before : list string)
  (mark : ascii) (name : string) (after : list string) :
  doGit ["branch"] st = (Returns (out, None), st') ->
  strings.Split out strings.nl
  = (before ++ String "*" (String mark name) :: after)%list ->
  (forall line, In line before -> strings.HasPrefix line "*" = false) ->
  Branch st = (Returns (name, None), st').
Proof.
  intros E Hsplit Hbefore. unfold Branch, bind, ret, lift.
  rewrite E. cbv beta iota. rewrite Hsplit.
  now rewrite branchLoop_marked.
Qed.

(** X22.  [Branch] fails, with an error and without a panic, when no
    line is marked. *)
Lemma Branch_unmarked (st st' : State) (out : string) :
  doGit ["branch"] st = (Returns (out, None), st') ->
  (forall line, In line (strings.Split out strings.nl) ->
     strings.HasPrefix line "*" = false) ->
  Branch st
  = (Returns ("", Some (errorsNew "unexpected output from git command")), st').
Proof.
  intros E H. unfold Branch, bind, ret, lift.
  rewrite E. cbv beta iota. now rewrite branchLoop_unmarked.
Qed.

(** *** Construction *)

Lemma skipn_last {A : Type} (xs : list A) (d : A) :
  xs <> [] -> List.skipn (List.length xs - 1) xs = [List.last xs d].
Proof.
  induction xs as [|x xs IH]; intro H; [congruence|].
  destruct xs as [|y xs]; [reflexivity|].
  replace (List.length (x :: y :: xs) - 1)%nat
    with (S (List.length (y :: xs) - 1)) by (simpl; lia).
  cbn [List.skipn]. rewrite IH by discriminate. reflexivity.
Qed.

(** The last piece of the split, before the suffix is looked at. *)
Lemma repoName_unfold (url : string) :
  let seg := List.last (strings.Split url "/"%char) "" in
  repoName url
  = if strings.HasSuffix seg ".git"
    then sliceTo seg (strings.len seg - 4)
    else Returns seg.
Proof.
  cbn zeta. unfold repoName, listFrom, index.
  destruct (StringFacts.Split_cons url "/"%char) as (p & ps & E).
  rewrite E.
  set (parts := p :: ps).
  assert (Hlen : (1 <= List.length parts)%nat) by (simpl; lia).
  replace ((0 <=? Z.of_nat (List.length parts) - 1)
           && (Z.of_nat (List.length parts) - 1
               <=? Z.of_nat (List.length parts))) with true
    by (symmetry; apply andb_true_iff; split; apply Z.leb_le; lia).
  replace (Z.to_nat (Z.of_nat (List.length parts) - 1))
    with (List.length parts - 1)%nat by lia.
  rewrite (skipn_last parts "") by discriminate.
  reflexivity.
Qed.

Lemma repoName_suffixed (url base : string) :
  List.last (strings.Split url "/"%char) "" = base ++ ".git" ->
  repoName url = Returns base.
Proof.
  intro H. rewrite repoName_unfold. cbn zeta. rewrite H.
  rewrite StringFacts.HasSuffix_app. unfold sliceTo, strings.len.
  rewrite StringFacts.length_app. cbn [String.length].
  replace ((0 <=? Z.of_nat (String.length base + 4) - 4)
           && (Z.of_nat (String.length base + 4) - 4
               <=? Z.of_nat (String.length base + 4))) with true
    by (symmetry; apply andb_true_iff; split; apply Z.leb_le; lia).
  replace (Z.to_nat (Z.of_nat (String.length base + 4) - 4))
    with (String.length base) by lia.
  now rewrite StringFacts.take_app.
Qed.

Lemma repoName_plain (url : string) :
  (forall base,
     List.last (strings.Split url "/"%char) "" <> base ++ ".git") ->
  repoName url = Returns (List.last (strings.Split url "/"%char) "").
Proof.
  intro H. rewrite repoName_unfold. cbn zeta.
  destruct (strings.HasSuffix _ ".git") eqn:E; [|reflexivity].
  apply StringFacts.HasSuffix_iff in E as [base E]. now apply H in E.
Qed.

(** [repoName] never panics. *)
Lemma repoName_total (url : string) : exists name, repoName url = Returns name.
Proof.
  destruct (strings.HasSuffix (List.last (strings.Split url "/"%char) "")
              ".git") eqn:E.
  - apply StringFacts.HasSuffix_iff in E as [base E].
    exists base. now apply repoName_suffixed.
  - eexists. apply repoName_plain. intros base Hb.
    rewrite Hb, StringFacts.HasSuffix_app in E. discriminate.
Qed.

Lemma New_unfold (url branch workDir : string) (options : list SetOptFunc)
  (s : Sys) (name : string) :
  repoName url = Returns name ->
  New url branch workDir options s
  = let '(res, st) :=
      reconcile branch
        {| self := handleFor url workDir options name; sys := s |} in
    (res, sys st).
Proof.
  intro H. unfold New, handleFor. rewrite H. cbn [URL WorkDir Name].
  destruct (String.eqb (CloneDir (getOpts options)) ""); reflexivity.
Qed.

(** A handle [New] returns is the handle it built. *)
Lemma reconcile_handle (branch : string) (st st' : State) (r : Repo)
  (err : option error) :
  reconcile branch st = (Returns (Some r, err), st') -> r = self st.
Proof.
  unfold reconcile, bind, ret, field.
  pose proof (preserves_CloneOrPull st) as P1.
  destruct (CloneOrPull st) as [[[e|]|] st1]; cbv beta iota;
    try discriminate.
  pose proof (preserves_Branch st1) as P2.
  destruct (Branch st1) as [[[b [e|]]|] st2]; cbv beta iota;
    try discriminate.
  cbn in P1, P2.
  destruct (negb (String.eqb b branch)).
  - pose proof (preserves_Checkout branch st2) as P3.
    destruct (Checkout branch st2) as [[[e|]|] st3]; cbv beta iota;
      try discriminate.
    cbn in P3. intros [= <- _ _]. unfold id. congruence.
  - intros [= <- _ _]. unfold id. congruence.
Qed.

Lemma New_handle (url branch workDir : string) (options : list SetOptFunc)
  (s s' : Sys) (r : Repo) (err : option error) :
  New url branch workDir options s = (Returns (Some r, err), s') ->
  exists name,
    repoName url = Returns name /\ r = handleFor url workDir options name.
Proof.
  destruct (repoName_total url) as [name Hname].
  rewrite (New_unfold url branch workDir options s name Hname).
  destruct (reconcile branch _) as [res st] eqn:E.
  intros [= -> _]. exists name. split; [exact Hname|].
  now apply reconcile_handle in E.
Qed.

Lemma lastSegment_Split (url seg : string) :
  lastSegment url seg -> List.last (strings.Split url "/"%char) "" = seg.
Proof.
  intros [Hseg Hurl].
  destruct (StringFacts.Split_last url "/"%char) as [Hocc Hs].
  cbn zeta in Hocc, Hs.
  set (seg' := List.last (strings.Split url "/"%char) "") in *.
  destruct Hurl as [-> | [b1 E1]]; destruct Hs as [E2 | [b2 E2]].
  - now symmetry.
  - rewrite E2, StringFacts.occurs_app in Hseg. discriminate.
  - rewrite <- E2, E1 in Hocc. cbn [append] in Hocc.
    rewrite StringFacts.occurs_app in Hocc. discriminate.
  - rewrite E1 in E2. cbn [append] in E2. symmetry.
    now apply StringFacts.tail_unique in E2.
Qed.

(** C7.  The short name is derived from the final segment of the URL,
    the part after its last slash (all of it when there is none): the
    segment without its suffix [.git] when it ends in [.git], the
    segment as it is otherwise.  That name is the [Name] of every
    handle [New] returns. *)
Theorem repoName_last_segment (url : string) :
  exists seg,
    lastSegment url seg
    /\ (forall base, seg = base ++ ".git" -> repoName url = Returns base)
    /\ ((forall base, seg <> base ++ ".git") -> repoName url = Returns seg)
    /\ (forall branch workDir options s r s',
          New url branch workDir options s = (Returns (Some r, None), s') ->
          repoName url = Returns (Name r)).
Proof.
  exists (List.last (strings.Split url "/"%char) "").
  split; [apply StringFacts.Split_last|].
  split; [intros base H; now apply repoName_suffixed|].
  split; [apply repoName_plain|].
  intros branch workDir options s r s' H.
  apply New_handle in H as (name & Hname & ->). exact Hname.
Qed.

(** C4, as the code has it.  [New] has no check of the URL.  When the
    final segment of the URL is empty, the short name is the empty
    string and construction goes on to reconciliation with the handle
    of that name: if [CloneOrPull] succeeds on it and [Branch] then
    reports the wanted branch, [New] returns that handle and no
    error. *)
Theorem New_accepts_empty_segment (url branch workDir : string)
  (options : list SetOptFunc) (s : Sys) (st1 st2 : State) :
  lastSegment url "" ->
  CloneOrPull {| self := handleFor url workDir options ""; sys := s |}
  = (Returns None, st1) ->
  Branch st1 = (Returns (branch, None), st2) ->
  New url branch workDir options s
  = (Returns (Some (handleFor url workDir options ""), None), sys st2).
Proof.
  intros Hseg Hcp Hbr.
  assert (Hname : repoName url = Returns "").
  { apply lastSegment_Split in Hseg. rewrite repoName_plain; rewrite Hseg.
    - reflexivity.
    - intros base H. destruct base; discriminate H. }
  rewrite (New_unfold url branch workDir options s "" Hname).
  unfold reconcile, bind, ret, field. rewrite Hcp. cbv beta iota.
  rewrite Hbr. cbv beta iota. rewrite String.eqb_refl. cbn [negb].
  pose proof (preserves_CloneOrPull
                {| self := handleFor url workDir options ""; sys := s |}) as P1.
  pose proof (preserves_Branch st1) as P2.
  rewrite Hcp in P1. rewrite Hbr in P2. cbn [snd self] in P1, P2.
  unfold id. now rewrite P2, P1.
Qed.

(** C9.  No method assigns to a field of its receiver: after any of
    them, whatever the host answered and whether it returned or
    panicked, [URL], [Name], [WorkDir] and [RepoDir] are what they
    were.  The handle [New] returns is the one construction computed,
    untouched by the reconciliation that ran on it. *)
Theorem fields_fixed :
  preserves Clone
  /\ (forall options, preserves (Pull options))
  /\ preserves CloneOrPull
  /\ (forall msg, preserves (Commit msg))
  /\ preserves Push
  /\ (forall pattern, preserves (Add pattern))
  /\ (forall msg, preserves (AddCommitPush msg))
  /\ (forall b, preserves (Checkout b))
  /\ preserves Branch
  /\ preserves CurrentCommit
  /\ (forall c1 c2, preserves (DiffStatus c1 c2))
  /\ (forall path, preserves (ShowDeletedFile path))
  /\ (forall commit path, preserves (ShowForCommit commit path))
  /\ preserves IsClean
  /\ (forall commit, preserves (CommitAuthor commit))
  /\ (forall args, preserves (doGit args))
  /\ (forall url branch workDir options s r err s',
        New url branch workDir options s = (Returns (Some r, err), s') ->
        exists name,
          repoName url = Returns name
          /\ r = handleFor url workDir options name).
Proof.
  repeat split; intros;
    auto using preserves_Clone, preserves_Pull, preserves_CloneOrPull,
      preserves_Commit, preserves_Push, preserves_Add,
      preserves_AddCommitPush, preserves_Checkout, preserves_Branch,
      preserves_CurrentCommit, preserves_DiffStatus,
      preserves_ShowDeletedFile, preserves_ShowForCommit,
      preserves_IsClean, preserves_CommitAuthor, preserves_doGit.
  eapply New_handle; eassumption.
Qed.

(** *** Deleted-file recovery *)

(** [line[strings.Index(line, " ")+1:]] never panics; it is what
    follows the first space, or the line itself when it has none. *)
Lemma identifier_after (line id : string) :
  afterFirstSpace line id ->
  sliceFrom line (strings.Index line space + 1) = Returns id.
Proof.
  intros (before & Hb & ->). unfold space. cbn [append].
  rewrite (StringFacts.Index_first _ _ _ Hb).
  unfold sliceFrom, strings.len. rewrite StringFacts.length_app.
  cbn [String.length].
  replace ((0 <=? Z.of_nat (String.length before) + 1)
           && (Z.of_nat (String.length before) + 1
               <=? Z.of_nat (String.length before + S (String.length id))))
    with true
    by (symmetry; apply andb_true_iff; split; apply Z.leb_le; lia).
  replace (Z.to_nat (Z.of_nat (String.length before) + 1))
    with (S (String.length before)) by lia.
  now rewrite StringFacts.drop_past.
Qed.

Lemma identifier_whole (line : string) :
  occurs " " line = false ->
  sliceFrom line (strings.Index line space + 1) = Returns line.
Proof.
  intro H. unfold space. rewrite (StringFacts.Index_absent _ _ H).
  change (-1 + 1) with 0.
  unfold sliceFrom, strings.len. change (0 <=? 0) with true.
  replace (0 <=? Z.of_nat (String.length line)) with true
    by (symmetry; apply Z.leb_le; lia).
  reflexivity.
Qed.

Lemma identifier_total (line : string) :
  exists id, sliceFrom line (strings.Index line space + 1) = Returns id.
Proof.
  destruct (occurs " " line) eqn:E.
  - apply StringFacts.occurs_split in E as (before & rest & Hb & E).
    exists rest. apply identifier_after. now exists before.
  - exists line. now apply identifier_whole.
Qed.

Lemma sameButStdout_trans (st1 st2 st3 : State) :
  sameButStdout st1 st2 -> sameButStdout st2 st3 -> sameButStdout st1 st3.
Proof. intros (? & ? & ?) (? & ? & ?). repeat split; congruence. Qed.

Lemma sameButStdout_printed (text : string) (st : State) :
  sameButStdout st (printed text st).
Proof. now repeat split. Qed.

(** The loop once one commit line has been counted. *)
Lemma historyLoop_second (lines : list string) (commit : string)
  (st : State) (second : string) (others : list string) (id : string) :
  List.filter (fun line => strings.HasPrefix line "commit") lines
  = second :: others ->
  sliceFrom second (strings.Index second space + 1) = Returns id ->
  exists st2,
    historyLoop lines 1 commit st = (Returns id, st2)
    /\ sameButStdout st st2.
Proof.
  intros Hf Hid. revert st.
  induction lines as [|line lines IH]; intro st; [discriminate|].
  cbn [List.filter] in Hf. cbn [historyLoop].
  destruct (strings.HasPrefix line "commit").
  - injection Hf as -> _.
    change (1 + 1 =? 2) with true. cbv beta iota.
    unfold bind, lift, ret, Println. rewrite Hid.
    eexists. split; [reflexivity|].
    eapply sameButStdout_trans; apply sameButStdout_printed.
  - now apply IH.
Qed.

(** The loop from its start. *)
Lemma historyLoop_first (lines : list string) (commit : string)
  (st : State) (first second : string) (others : list string)
  (id : string) :
  List.filter (fun line => strings.HasPrefix line "commit") lines
  = first :: second :: others ->
  sliceFrom second (strings.Index second space + 1) = Returns id ->
  exists st2,
    historyLoop lines 0 commit st = (Returns id, st2)
    /\ sameButStdout st st2.
Proof.
  intros Hf Hid. revert st.
  induction lines as [|line lines IH]; intro st; [discriminate|].
  cbn [List.filter] in Hf. cbn [historyLoop].
  destruct (strings.HasPrefix line "commit").
  - injection Hf as _ Hf.
    change (0 + 1 =? 2) with false. cbv beta iota.
    unfold bind, Println.
    destruct (historyLoop_second lines commit
                (printed ("commitID: " ++ " " ++ itoa (0 + 1)
                          ++ String strings.nl "") st)
                second others id Hf Hid) as (st2 & E & S2).
    exists st2. split; [exact E|].
    eapply sameButStdout_trans; [apply sameButStdout_printed | exact S2].
  - now apply IH.
Qed.

(** [ShowDeletedFile] once the log has succeeded with two commit lines:
    it is [ShowForCommit] with the identifier sliced from the second. *)
Lemma ShowDeletedFile_sliced (path out : string) (st st1 : State)
  (first second : string) (others : list string) (id : string) :
  doGit ["log"; "--full-history"; "-2"; "--"; path] st
  = (Returns (out, None), st1) ->
  commitLines out = first :: second :: others ->
  sliceFrom second (strings.Index second space + 1) = Returns id ->
  exists st2,
    sameButStdout st1 st2
    /\ ShowDeletedFile path st = ShowForCommit id path st2.
Proof.
  intros Elog Hlines Hid.
  destruct (historyLoop_first (strings.Split out strings.nl) ""
              (printed ("History: " ++ " " ++ out ++ String strings.nl "") st1)
              first second others id Hlines Hid)
    as (st2 & Eloop & Sloop).
  exists st2. split.
  - eapply sameButStdout_trans; [apply sameButStdout_printed | exact Sloop].
  - unfold ShowDeletedFile, bind. rewrite Elog. cbv beta iota.
    unfold Println at 1. cbv beta iota. rewrite Eloop. reflexivity.
Qed.

(** When the second commit line has no space, the whole line is passed
    on as the identifier. *)
Lemma ShowDeletedFile_whole_line (path out : string) (st st1 : State)
  (first second : string) (others : list string) :
  doGit ["log"; "--full-history"; "-2"; "--"; path] st
  = (Returns (out, None), st1) ->
  commitLines out = first :: second :: others ->
  occurs " " second = false ->
  exists st2,
    sameButStdout st1 st2
    /\ ShowDeletedFile path st = ShowForCommit second path st2.
Proof.
  intros Elog Hlines Hno.
  eapply ShowDeletedFile_sliced; eauto using identifier_whole.
Qed.

(** C2, as the code has it.  When the log succeeded, its text has two
    lines or more that start with [commit], and the second of them has a
    space, the identifier is what follows the first space of that line:
    [ShowDeletedFile] is [ShowForCommit] with that identifier and the
    path, run in a state that differs from the one after the log only in
    what was printed, and the command it runs is [git show id:path]. *)
Theorem ShowDeletedFile_second_commit (path out : string) (st st1 : State)
  (first second : string) (others : list string) (id : string) :
  doGit ["log"; "--full-history"; "-2"; "--"; path] st
  = (Returns (out, None), st1) ->
  commitLines out = first :: second :: others ->
  afterFirstSpace second id ->
  exists st2,
    sameButStdout st1 st2
    /\ ShowDeletedFile path st = ShowForCommit id path st2
    /\ trace (sys (snd (ShowDeletedFile path st)))
       = (trace (sys st1)
          ++ [gitIn (RepoDir (self st))
                ["show"; (id ++ ":" ++ path)%string]])%list.
Proof.
  intros Elog Hlines Hid.
  destruct (ShowDeletedFile_sliced path out st st1 first second others id
              Elog Hlines (identifier_after second id Hid))
    as (st2 & (Hself & Hworld & Htrace) & E).
  exists st2. split; [now repeat split|]. split; [exact E|].
  rewrite E. unfold ShowForCommit.
  destruct (doGit_total ["show"; id ++ ":" ++ path] st2) as (res & w & ->).
  cbn [snd ran sys trace]. rewrite Htrace, Hself.
  pose proof (preserves_doGit
                ["log"; "--full-history"; "-2"; "--"; path] st) as P.
  rewrite Elog in P. cbn [snd] in P. now rewrite P.
Qed.

(** *** Diff status *)

Lemma lookup_statMap (code : string) : lookup statMap code = kindOf code.
Proof.
  unfold kindOf, statMap, lookup.
  rewrite (String.eqb_sym "A"), (String.eqb_sym "M"), (String.eqb_sym "D").
  reflexivity.
Qed.

(** The loop of [DiffStatus] never panics, and appends to [diffs] the
    records of the accepted lines, in order. *)
Lemma diffLoop_records (lines : list string) (diffs : list DiffStat) :
  diffLoop lines diffs = Returns (diffs ++ records lines)%list.
Proof.
  revert diffs. induction lines as [|line lines IH]; intro diffs;
    cbn [diffLoop records].
  - now rewrite app_nil_r.
  - unfold accepted.
    destruct (strings.Fields line) as [|code [|name [|field3 rest]]].
    + apply IH.
    + apply IH.
    + change (Z.of_nat (List.length [code; name]) =? 2) with true.
      change (index [code; name] 1) with (Returns name).
      change (index [code; name] 0) with (Returns code).
      cbv beta iota. rewrite lookup_statMap.
      destruct (kindOf code); [|apply IH].
      rewrite IH, <- app_assoc. reflexivity.
    + replace (Z.of_nat (List.length (code :: name :: field3 :: rest)) =? 2)
        with false by (symmetry; apply Z.eqb_neq; simpl List.length; lia).
      apply IH.
Qed.

Lemma DiffStatus_records (c1 c2 out : string) (st st' : State) :
  doGit ["diff"; "--name-status"; c1; c2] st = (Returns (out, None), st') ->
  DiffStatus c1 c2 st
  = (Returns (records (strings.Split out strings.nl), None), st').
Proof.
  intro E. unfold DiffStatus, bind, lift, ret. rewrite E. cbv beta iota.
  rewrite diffLoop_records. reflexivity.
Qed.

Lemma kindOf_inv (code : string) (kind : ModType) :
  kindOf code = Some kind ->
  (code = "A" /\ kind = StatNew)
  \/ (code = "M" /\ kind = StatModified)
  \/ (code = "D" /\ kind = StatDeleted).
Proof.
  unfold kindOf.
  destruct (String.eqb_spec code "A"); [intros [= <-]; auto|].
  destruct (String.eqb_spec code "M"); [intros [= <-]; auto|].
  destruct (String.eqb_spec code "D"); [intros [= <-]; auto|].
  discriminate.
Qed.

Lemma accepted_inv (line : string) (d : DiffStat) :
  accepted line = Some d ->
  exists code,
    strings.Fields line = [code; Filename d]
    /\ ((code = "A" /\ Stat d = StatNew)
        \/ (code = "M" /\ Stat d = StatModified)
        \/ (code = "D" /\ Stat d = StatDeleted)).
Proof.
  unfold accepted.
  destruct (strings.Fields line) as [|code [|name [|field3 rest]]];
    try discriminate.
  destruct (kindOf code) as [kind|] eqn:K; [|discriminate].
  intros [= <-]. exists code. split; [reflexivity|].
  now apply kindOf_inv.
Qed.

Lemma records_In (lines : list string) (d : DiffStat) :
  In d (records lines) ->
  exists line, In line lines /\ accepted line = Some d.
Proof.
  induction lines as [|line lines IH]; cbn [records]; [intros []|].
  destruct (accepted line) as [d'|] eqn:A.
  - intros [-> | H].
    + exists line. split; [now left | exact A].
    + destruct (IH H) as (l & Hl & Hd). exists l. split; [now right | exact Hd].
  - intro H. destruct (IH H) as (l & Hl & Hd).
    exists l. split; [now right | exact Hd].
Qed.

Lemma records_ordered (lines : list string) :
  List.map Some (records lines)
  = List.map accepted (List.filter isAccepted lines).
Proof.
  induction lines as [|line lines IH]; cbn [records List.filter];
    [reflexivity|].
  unfold isAccepted. destruct (accepted line) as [d|] eqn:A.
  - cbn [List.map]. now rewrite A, IH.
  - exact IH.
Qed.

(** C6.  On the text of a successful diff, [DiffStatus] returns
    records and no error.  Every record has one of the three kinds
    [StatNew], [StatModified], [StatDeleted], and comes from a line of
    the text that has exactly two fields, its first field being the
    code [A], [M] or [D] of that kind and its second the file name.
    There are as many records as such lines: every other line, whatever
    its code or its number of fields, is passed over. *)
Theorem DiffStatus_kinds (c1 c2 out : string) (st st' : State) :
  doGit ["diff"; "--name-status"; c1; c2] st = (Returns (out, None), st') ->
  exists diffs,
    DiffStatus c1 c2 st = (Returns (diffs, None), st')
    /\ (forall d, In d diffs ->
          (Stat d = StatNew \/ Stat d = StatModified \/ Stat d = StatDeleted)
          /\ exists line code,
               In line (strings.Split out strings.nl)
               /\ strings.Fields line = [code; Filename d]
               /\ ((code = "A" /\ Stat d = StatNew)
                   \/ (code = "M" /\ Stat d = StatModified)
                   \/ (code = "D" /\ Stat d = StatDeleted)))
    /\ List.length diffs
       = List.length (List.filter isAccepted (strings.Split out strings.nl)).
Proof.
  intro E. exists (records (strings.Split out strings.nl)).
  split; [now apply DiffStatus_records|]. split.
  - intros d Hd. apply records_In in Hd as (line & Hline & Hacc).
    apply accepted_inv in Hacc as (code & Hf & Hk). split.
    + destruct Hk as [[_ H] | [[_ H] | [_ H]]]; auto.
    + now exists line, code.
  - rewrite <- (length_map Some), records_ordered. apply length_map.
Qed.

(** C10.  On the text of a successful diff, the records [DiffStatus]
    returns are those of the accepted lines in the order of the
    lines: there are as many, and the k-th record is the record of
    the k-th accepted line. *)
Theorem DiffStatus_order (c1 c2 out : string) (st st' : State) :
  doGit ["diff"; "--name-status"; c1; c2] st = (Returns (out, None), st') ->
  exists diffs,
    DiffStatus c1 c2 st = (Returns (diffs, None), st')
    /\ List.length diffs
       = List.length (List.filter isAccepted (strings.Split out strings.nl))
    /\ forall k line,
         List.nth_error
           (List.filter isAccepted (strings.Split out strings.nl)) k
         = Some line ->
         exists d, List.nth_error diffs k = Some d /\ accepted line = Some d.
Proof.
  intro E. exists (records (strings.Split out strings.nl)).
  split; [now apply DiffStatus_records|].
  pose proof (records_ordered (strings.Split out strings.nl)) as O.
  split.
  - rewrite <- (length_map Some), O. apply length_map.
  - intros k line Hk.
    assert (N : List.nth_error
                  (List.map Some (records (strings.Split out strings.nl))) k
                = Some (accepted line)).
    { rewrite O. now apply map_nth_error. }
    rewrite nth_error_map in N.
    destruct (List.nth_error (records _) k) as [d|]; [|discriminate].
    injection N as N. now exists d.
Qed.

(** *** Commands, panics and failures *)

Lemma confined_ret {A : Type} (a : A) : confined (ret a).
Proof. intro st. split; [reflexivity|]. exists []. now rewrite app_nil_r. Qed.

Lemma confined_lift {A : Type} (o : outcome A) : confined (lift o).
Proof. intro st. split; [reflexivity|]. exists []. now rewrite app_nil_r. Qed.

Lemma confined_field {A : Type} (f : Repo -> A) : confined (field f).
Proof. intro st. split; [reflexivity|]. exists []. now rewrite app_nil_r. Qed.

Lemma confined_osStat (name : string) : confined (osStat name).
Proof. intro st. split; [reflexivity|]. exists []. now rewrite app_nil_r. Qed.

Lemma confined_Println (a b : string) : confined (Println a b).
Proof. intro st. split; [reflexivity|]. exists []. cbn. now rewrite app_nil_r. Qed.

Lemma confined_bind {A B : Type} (m : M A) (k : A -> M B) :
  confined m -> (forall a, confined (k a)) -> confined (bind m k).
Proof.
  intros Hm Hk st. unfold bind.
  destruct (Hm st) as (S1 & c1 & T1 & F1).
  destruct (m st) as [[a|] st1]; cbn [snd] in S1, T1 |- *.
  - destruct (Hk a st1) as (S2 & c2 & T2 & F2).
    split; [congruence|]. exists (c1 ++ c2)%list. split.
    + now rewrite T2, T1, app_assoc.
    + apply Forall_app. split; [exact F1|]. now rewrite <- S1.
  - split; [exact S1|]. now exists c1.
Qed.

Lemma confined_doGit (args : list string) : confined (doGit args).
Proof.
  intro st. destruct (doGit_total args st) as (res & w & ->).
  split; [reflexivity|].
  exists [gitIn (RepoDir (self st)) args]. split; [reflexivity|].
  repeat constructor.
Qed.

Lemma confined_Clone : confined Clone.
Proof.
  intro st. unfold Clone, bind, field, osStat, gitCommand, ret.
  cbv beta iota.
  destruct (os_Stat (world (sys st)) (WorkDir (self st))) as [e|].
  - destruct (IsNotExist (Some e)); (split; [reflexivity|]);
      exists []; now rewrite app_nil_r.
  - destruct (CombinedOutput _ _) as [[out [e|]] w]; cbv beta iota.
    + split; [reflexivity|]. eexists [_]. split; [reflexivity|].
      constructor; [|constructor].
      split; [reflexivity|]. right. now split.
    + match goal with
      | |- context [doGit ?a ?s] =>
          destruct (doGit_total a s) as ([o e] & w' & ->)
      end.
      split; [reflexivity|]. eexists [_; _]. split.
      * cbn. now rewrite <- app_assoc.
      * constructor; [|constructor; [|constructor]].
        -- split; [reflexivity|]. right. now split.
        -- split; [reflexivity|]. now left.
Qed.

#[local] Hint Resolve confined_ret confined_lift confined_field
  confined_osStat confined_Println confined_doGit confined_Clone : frame.

Ltac confine :=
  repeat first
    [ progress auto with frame
    | apply confined_bind; [|intro]
    | match goal with
      | |- confined (match ?x with _ => _ end) => destruct x
      | |- confined (if ?b then _ else _) => destruct b
      end ].

Lemma confined_historyLoop (lines : list string) (commitID : Z)
  (commit : string) : confined (historyLoop lines commitID commit).
Proof.
  revert commitID commit.
  induction lines as [|line lines IH]; intros commitID commit; cbn [historyLoop].
  - confine.
  - destruct (strings.HasPrefix line "commit"); [|apply IH].
    apply confined_bind; [confine | intros _].
    destruct (commitID + 1 =? 2); [confine | apply IH].
Qed.

#[local] Hint Resolve confined_historyLoop : frame.

Lemma confined_reconcile (branch : string) : confined (reconcile branch).
Proof. unfold reconcile, CloneOrPull, IsClean, Pull, Branch, Checkout. confine. Qed.

(** X1.  Whatever the host answers, a method leaves its receiver as it
    is and starts nothing but [git], in the repository directory of the
    receiver; the one exception is the clone, [git clone URL RepoDir],
    which runs in the parent directory.  The same holds for all that
    [New] starts on the handle it builds. *)
Theorem commands_confined :
  confined Clone
  /\ (forall options, confined (Pull options))
  /\ confined CloneOrPull
  /\ (forall msg, confined (Commit msg))
  /\ confined Push
  /\ (forall pattern, confined (Add pattern))
  /\ (forall msg, confined (AddCommitPush msg))
  /\ (forall b, confined (Checkout b))
  /\ confined Branch
  /\ confined CurrentCommit
  /\ (forall c1 c2, confined (DiffStatus c1 c2))
  /\ (forall path, confined (ShowDeletedFile path))
  /\ (forall commit path, confined (ShowForCommit commit path))
  /\ confined IsClean
  /\ (forall commit, confined (CommitAuthor commit))
  /\ (forall url branch workDir options s name,
        repoName url = Returns name ->
        exists cmds,
          trace (snd (New url branch workDir options s))
          = (trace s ++ cmds)%list
          /\ List.Forall (ownCommand (handleFor url workDir options name))
               cmds).
Proof.
  repeat match goal with |- _ /\ _ => split end;
    try (intros;
         unfold Pull, CloneOrPull, IsClean, Commit, Push, Add, AddCommitPush,
           Checkout, Branch, CurrentCommit, DiffStatus, ShowDeletedFile,
           ShowForCommit, CommitAuthor;
         confine; fail).
  intros url branch workDir options s name Hname.
  rewrite (New_unfold url branch workDir options s name Hname).
  destruct (confined_reconcile branch
              {| self := handleFor url workDir options name; sys := s |})
    as (_ & cmds & T & F).
  destruct (reconcile branch _) as [res st]. exists cmds. now split.
Qed.

Lemma returns_ret {A : Type} (a : A) : returns (ret a).
Proof. intro st. now eexists _, _. Qed.

Lemma returns_field {A : Type} (f : Repo -> A) : returns (field f).
Proof. intro st. now eexists _, _. Qed.

Lemma returns_osStat (name : string) : returns (osStat name).
Proof. intro st. now eexists _, _. Qed.

Lemma returns_Println (a b : string) : returns (Println a b).
Proof. intro st. now eexists _, _. Qed.

Lemma returns_bind {A B : Type} (m : M A) (k : A -> M B) :
  returns m -> (forall a, returns (k a)) -> returns (bind m k).
Proof.
  intros Hm Hk st. unfold bind.
  destruct (Hm st) as (a & st1 & ->). apply Hk.
Qed.

Lemma returns_doGit (args : list string) : returns (doGit args).
Proof.
  intro st. destruct (doGit_total args st) as (res & w & ->).
  now eexists _, _.
Qed.

Lemma returns_gitCommand (dir : string) (args : list string) :
  returns (gitCommand dir args).
Proof.
  intro st. unfold gitCommand.
  destruct (CombinedOutput _ _) as [res w]. now eexists _, _.
Qed.

Lemma returns_diffLoop (lines : list string) :
  returns (lift (diffLoop lines [])).
Proof.
  intro st. unfold lift. rewrite diffLoop_records. now eexists _, _.
Qed.

Lemma returns_identifier (line : string) :
  returns (lift (sliceFrom line (strings.Index line space + 1))).
Proof.
  intro st. unfold lift.
  destruct (identifier_total line) as [id ->]. now eexists _, _.
Qed.

#[local] Hint Resolve returns_ret returns_field returns_osStat
  returns_Println returns_doGit returns_gitCommand returns_diffLoop
  returns_identifier : frame.

Ltac total :=
  repeat first
    [ progress auto with frame
    | apply returns_bind; [|intro]
    | match goal with
      | |- returns (match ?x with _ => _ end) => destruct x
      | |- returns (if ?b then _ else _) => destruct b
      end ].

Lemma returns_historyLoop (lines : list string) (commitID : Z)
  (commit : string) : returns (historyLoop lines commitID commit).
Proof.
  revert commitID commit.
  induction lines as [|line lines IH]; intros commitID commit; cbn [historyLoop].
  - total.
  - destruct (strings.HasPrefix line "commit"); [|apply IH].
    apply returns_bind; [total | intros _].
    destruct (commitID + 1 =? 2); [total | apply IH].
Qed.

#[local] Hint Resolve returns_historyLoop : frame.

Lemma returns_CloneOrPull : returns CloneOrPull.
Proof. unfold CloneOrPull, Clone, IsClean, Pull. total. Qed.

Lemma returns_Checkout (b : string) : returns (Checkout b).
Proof. unfold Checkout. total. Qed.

(** X2.  No method but [Branch] can panic, whatever the host answers:
    the indexing of [DiffStatus] and the slice of [ShowDeletedFile] stay
    within bounds on every text, and so do the index and the slice that
    derive the short name from a URL. *)
Theorem never_panic :
  returns Clone
  /\ (forall options, returns (Pull options))
  /\ returns CloneOrPull
  /\ (forall msg, returns (Commit msg))
  /\ returns Push
  /\ (forall pattern, returns (Add pattern))
  /\ (forall msg, returns (AddCommitPush msg))
  /\ (forall b, returns (Checkout b))
  /\ returns CurrentCommit
  /\ (forall c1 c2, returns (DiffStatus c1 c2))
  /\ (forall path, returns (ShowDeletedFile path))
  /\ (forall commit path, returns (ShowForCommit commit path))
  /\ returns IsClean
  /\ (forall commit, returns (CommitAuthor commit))
  /\ (forall url, exists name, repoName url = Returns name).
Proof.
  repeat match goal with |- _ /\ _ => split end;
    try (intros;
         unfold Clone, Pull, CloneOrPull, IsClean, Commit, Push, Add,
           AddCommitPush, Checkout, CurrentCommit, DiffStatus,
           ShowDeletedFile, ShowForCommit, CommitAuthor;
         total; fail).
  apply repoName_total.
Qed.

(** The loop of [Branch] panics exactly on a first marked line of one
    byte. *)
Lemma branchLoop_panics (lines : list string) :
  branchLoop lines = Panics
  <-> exists before after,
        lines = (before ++ "*" :: after)%list
        /\ forall line, In line before -> strings.HasPrefix line "*" = false.
Proof.
  induction lines as [|line lines IH]; cbn [branchLoop].
  - split; [discriminate|]. intros (before & after & E & _).
    destruct before; discriminate E.
  - destruct (strings.HasPrefix line "*") eqn:P.
    + apply StringFacts.HasPrefix_inv in P as [rest ->]. cbn [append].
      destruct rest as [|mark name].
      * split; [intros _ | reflexivity].
        exists [], lines. split; [reflexivity | intros ? []].
      * rewrite sliceFrom_two. split; [discriminate|].
        intros (before & after & E & H).
        destruct before as [|l before]; cbn [app] in E.
        -- discriminate E.
        -- injection E as <- _. specialize (H _ (or_introl eq_refl)).
           discriminate H.
    + rewrite IH. split.
      * intros (before & after & -> & H).
        exists (line :: before), after. split; [reflexivity|].
        intros l [<- | Hl]; [exact P | now apply H].
      * intros (before & after & E & H).
        destruct before as [|l before]; cbn [app] in E.
        -- injection E as -> _. discriminate P.
        -- injection E as <- ->. exists before, after.
           split; [reflexivity|]. intros l' Hl. apply H. now right.
Qed.

(** X3.  [Branch] panics exactly when [git branch] succeeded and the
    first line of its text that starts with a star is the star alone. *)
Theorem Branch_panics_iff (st : State) :
  fst (Branch st) = Panics
  <-> exists out st' before after,
        doGit ["branch"] st = (Returns (out, None), st')
        /\ strings.Split out strings.nl = (before ++ "*" :: after)%list
        /\ forall line, In line before -> strings.HasPrefix line "*" = false.
Proof.
  unfold Branch, bind, ret, lift.
  destruct (doGit_total ["branch"] st) as ([out [e|]] & w & E);
    rewrite E; cbv beta iota.
  - split; [discriminate|]. intros (? & ? & ? & ? & [=] & _).
  - destruct (branchLoop (strings.Split out strings.nl)) as [[b|]|] eqn:L;
      cbn [fst].
    + split; [discriminate|].
      intros (? & ? & before & after & [= <- _] & HS & H).
      assert (X : branchLoop (strings.Split out strings.nl) = Panics)
        by (apply branchLoop_panics; now exists before, after).
      congruence.
    + split; [discriminate|].
      intros (? & ? & before & after & [= <- _] & HS & H).
      assert (X : branchLoop (strings.Split out strings.nl) = Panics)
        by (apply branchLoop_panics; now exists before, after).
      congruence.
    + split; [intros _ | reflexivity].
      apply branchLoop_panics in L as (before & after & HS & H).
      now eexists out, _, before, after.
Qed.

(** X4.  [New] panics exactly when reconciliation succeeded on the
    handle it built and [Branch] then panics. *)
Theorem New_panics_iff (url branch workDir : string)
  (options : list SetOptFunc) (s : Sys) :
  fst (New url branch workDir options s) = Panics
  <-> exists name st1,
        repoName url = Returns name
        /\ CloneOrPull {| self := handleFor url workDir options name;
                          sys := s |} = (Returns None, st1)
        /\ fst (Branch st1) = Panics.
Proof.
  destruct (repoName_total url) as [name Hname].
  rewrite (New_unfold url branch workDir options s name Hname).
  set (st0 := {| self := handleFor url workDir options name; sys := s |}).
  assert (R : fst (reconcile branch st0) = Panics
              <-> exists st1, CloneOrPull st0 = (Returns None, st1)
                              /\ fst (Branch st1) = Panics).
  { unfold reconcile, bind, ret, field.
    destruct (returns_CloneOrPull st0) as (err & st1 & ->).
    cbv beta iota. destruct err as [e|].
    - split; [discriminate|]. intros (? & [=] & _).
    - destruct (Branch st1) as [[[b [e|]]|] st2] eqn:B; cbv beta iota.
      + split; [discriminate|]. intros (? & [= <-] & H).
        rewrite B in H. discriminate H.
      + split; [|intros (? & [= <-] & H); rewrite B in H; discriminate H].
        destruct (negb (String.eqb b branch)); [|discriminate].
        destruct (returns_Checkout branch st2) as ([e|] & st3 & ->);
          discriminate.
      + split; [intros _ | reflexivity]. exists st1. split; [reflexivity|].
        now rewrite B. }
  destruct (reconcile branch st0) as [res st] eqn:E. cbn [fst] in R |- *.
  rewrite R. split.
  - intros (st1 & H1 & H2). now exists name, st1.
  - intros (name' & st1 & Hn & H1 & H2).
    rewrite Hname in Hn. injection Hn as <-. now exists st1.
Qed.

(** *** Construction, step by step *)

Lemma reconcile_result (branch : string) (st st' : State)
  (r : option Repo) (err : option error) :
  reconcile branch st = (Returns (r, err), st') ->
  (exists h, r = Some h /\ err = None) \/ (r = None /\ exists e, err = Some e).
Proof.
  unfold reconcile, bind, ret, field.
  destruct (CloneOrPull st) as [[[e|]|] st1]; cbv beta iota;
    try discriminate.
  { intros [= <- <- _]. right. split; [reflexivity | now exists e]. }
  destruct (Branch st1) as [[[b [e|]]|] st2]; cbv beta iota;
    try discriminate.
  { intros [= <- <- _]. right. split; [reflexivity | now exists e]. }
  destruct (negb (String.eqb b branch)).
  - destruct (Checkout branch st2) as [[[e|]|] st3]; cbv beta iota;
      try discriminate.
    + intros [= <- <- _]. right. split; [reflexivity | now exists e].
    + intros [= <- <- _]. left. now eexists.
  - intros [= <- <- _]. left. now eexists.
Qed.

(** X5.  [New] returns a handle or an error, never both and never
    neither. *)
Theorem New_handle_or_error (url branch workDir : string)
  (options : list SetOptFunc) (s s' : Sys) (r : option Repo)
  (err : option error) :
  New url branch workDir options s = (Returns (r, err), s') ->
  (exists h, r = Some h /\ err = None) \/ (r = None /\ exists e, err = Some e).
Proof.
  destruct (repoName_total url) as [name Hname].
  rewrite (New_unfold url branch workDir options s name Hname).
  destruct (reconcile branch _) as [res st] eqn:E.
  intros [= -> _]. now apply reconcile_result in E.
Qed.

Lemma Checkout_trace (b : string) (st : State) :
  exists err st',
    Checkout b st = (Returns err, st')
    /\ self st' = self st
    /\ trace (sys st')
       = (trace (sys st) ++ [gitIn (RepoDir (self st)) ["checkout"; b]])%list.
Proof.
  unfold Checkout, bind, ret.
  destruct (doGit_total ["checkout"; b] st) as ([o e] & w & ->).
  cbv beta iota. now eexists _, _.
Qed.

(** X6.  Once reconciliation has succeeded and [Branch] has reported the
    current branch, [New] returns the handle at once if that is the
    wanted branch, running no checkout; otherwise it runs exactly
    [git checkout branch], and returns the handle if that succeeds and
    the error of the checkout if not. *)
Theorem New_checkout_when_needed (url branch workDir : string)
  (options : list SetOptFunc) (s : Sys) (name current : string)
  (st1 st2 : State) :
  repoName url = Returns name ->
  CloneOrPull {| self := handleFor url workDir options name; sys := s |}
  = (Returns None, st1) ->
  Branch st1 = (Returns (current, None), st2) ->
  (current = branch ->
     New url branch workDir options s
     = (Returns (Some (handleFor url workDir options name), None), sys st2))
  /\ (current <> branch ->
      exists err st3,
        Checkout branch st2 = (Returns err, st3)
        /\ trace (sys st3)
           = (trace (sys st2)
              ++ [gitIn (RepoDir (handleFor url workDir options name))
                    ["checkout"; branch]])%list
        /\ New url branch workDir options s
           = (Returns (match err with
                       | Some _ => None
                       | None => Some (handleFor url workDir options name)
                       end, err), sys st3)).
Proof.
  intros Hname Hcp Hbr.
  rewrite (New_unfold url branch workDir options s name Hname).
  set (st0 := {| self := handleFor url workDir options name; sys := s |}) in *.
  pose proof (preserves_CloneOrPull st0) as P1.
  pose proof (preserves_Branch st1) as P2.
  rewrite Hcp in P1. rewrite Hbr in P2. cbn [snd] in P1, P2.
  assert (S2 : self st2 = handleFor url workDir options name)
    by (rewrite P2, P1; reflexivity).
  unfold reconcile, bind, ret, field. rewrite Hcp. cbv beta iota.
  rewrite Hbr. cbv beta iota. split.
  - intros ->. rewrite String.eqb_refl. cbn [negb]. unfold id.
    now rewrite S2.
  - intro Hne. apply String.eqb_neq in Hne. rewrite Hne. cbn [negb].
    destruct (Checkout_trace branch st2) as (err & st3 & E & S3 & T3).
    exists err, st3. rewrite E. cbv beta iota.
    split; [reflexivity|]. split; [now rewrite T3, S2|].
    destruct err; [reflexivity|]. unfold id. now rewrite S3, S2.
Qed.

(** X7.  [New] stops at the first step that fails and passes its error
    on as it is: after a failed reconciliation no [git branch] is run,
    and after a failed [Branch] no checkout. *)
Theorem New_stops_at_failure (url branch workDir : string)
  (options : list SetOptFunc) (s : Sys) (name : string) :
  repoName url = Returns name ->
  (forall e st1,
     CloneOrPull {| self := handleFor url workDir options name; sys := s |}
     = (Returns (Some e), st1) ->
     New url branch workDir options s = (Returns (None, Some e), sys st1))
  /\ (forall st1 text e st2,
        CloneOrPull {| self := handleFor url workDir options name; sys := s |}
        = (Returns None, st1) ->
        Branch st1 = (Returns (text, Some e), st2) ->
        New url branch workDir options s = (Returns (None, Some e), sys st2)).
Proof.
  intro Hname.
  rewrite (New_unfold url branch workDir options s name Hname).
  unfold reconcile, bind, ret. split.
  - intros e st1 ->. reflexivity.
  - intros st1 text e st2 -> ->. reflexivity.
Qed.

(** What runs after [m] only adds to the trace [m] left. *)
Lemma bind_extends {A B : Type} (m : M A) (k : A -> M B) (st : State) :
  (forall a, confined (k a)) ->
  exists more,
    trace (sys (snd (bind m k st)))
    = (trace (sys (snd (m st))) ++ more)%list.
Proof.
  intro Hk. unfold bind. destruct (m st) as [[a|] st1]; cbn [snd].
  - destruct (Hk a st1) as (_ & more & T & _). now exists more.
  - exists []. now rewrite app_nil_r.
Qed.

(** X8.  When the [.git] entry of the directory of the new handle does
    not exist and the parent directory does, the first command [New]
    runs is the clone, in the parent directory; the branch listing and
    any checkout come after it. *)
Theorem New_clones_first (url branch workDir : string)
  (options : list SetOptFunc) (s : Sys) (name : string) :
  repoName url = Returns name ->
  IsNotExist
    (os_Stat (world s)
       (path_Join (RepoDir (handleFor url workDir options name)) ".git"))
  = true ->
  os_Stat (world s) workDir = None ->
  exists rest,
    trace (snd (New url branch workDir options s))
    = (trace s
       ++ gitIn workDir
            ["clone"; url; RepoDir (handleFor url workDir options name)]
          :: rest)%list.
Proof.
  intros Hname Hmarker Hparent.
  rewrite (New_unfold url branch workDir options s name Hname).
  set (st0 := {| self := handleFor url workDir options name; sys := s |}).
  assert (Ecp : CloneOrPull st0 = Clone st0).
  { unfold CloneOrPull, bind, field, osStat. cbv beta iota.
    unfold st0 at 1 2. cbn [self sys]. now rewrite Hmarker. }
  destruct (Clone_trace st0 Hparent) as (rest & T).
  unfold reconcile.
  match goal with
  | |- context [bind CloneOrPull ?k st0] =>
      destruct (bind_extends CloneOrPull k st0) as (more & X)
  end.
  { intros [e|]; unfold Branch, Checkout; confine. }
  rewrite Ecp, T in X.
  destruct (bind CloneOrPull _ st0) as [res st]. cbn [snd] in X |- *.
  exists (rest ++ more)%list. rewrite X. cbn [st0 sys trace self].
  now rewrite <- app_assoc.
Qed.

(** *** Options *)

Lemma last_default {A : Type} (x : A) (xs : list A) (d d' : A) :
  List.last (x :: xs) d = List.last (x :: xs) d'.
Proof.
  revert x. induction xs as [|y xs IH]; intro x; [reflexivity|].
  exact (IH y).
Qed.

Lemma fold_setters (os : list Setter) (init : GitOpts) :
  let opts := List.fold_left (fun opts optSetter => optSetter opts)
                (List.map setter os) init in
  Rebase opts = Rebase init || List.existsb isRebase os
  /\ CloneDir opts = List.last (cloneDirs os) (CloneDir init).
Proof.
  revert init. induction os as [|o os IH]; intro init; cbn zeta.
  - cbn. now rewrite orb_false_r.
  - cbn [List.map List.fold_left]. destruct (IH (setter o init)) as [R C].
    cbn zeta in R, C. rewrite R, C.
    destruct o as [|dir]; cbn [setter isRebase List.existsb cloneDirs].
    + unfold SetOptRebase. cbn [Rebase CloneDir orb].
      split; [now rewrite orb_true_r | reflexivity].
    + unfold SetCloneDir. cbn [Rebase CloneDir orb].
      split; [reflexivity|].
      destruct (cloneDirs os) as [|x xs]; [reflexivity|].
      change (List.last (dir :: x :: xs) (CloneDir init))
        with (List.last (x :: xs) (CloneDir init)).
      apply last_default.
Qed.

(** X9.  Setters apply in the order they are given: rebase is on when
    [SetOptRebase] occurs among them, and the clone directory is that of
    the last [SetCloneDir], the empty string when there is none. *)
Theorem getOpts_setters (os : list Setter) :
  Rebase (getOpts (List.map setter os)) = List.existsb isRebase os
  /\ CloneDir (getOpts (List.map setter os)) = List.last (cloneDirs os) "".
Proof.
  unfold getOpts.
  destruct (fold_setters os {| Rebase := false; CloneDir := "" |}) as [R C].
  cbn zeta in R, C. now rewrite R, C.
Qed.

(** X10.  [Pull] runs one command: [git pull --rebase] when
    [SetOptRebase] is among its options, [git pull] otherwise; a clone
    directory among the options changes nothing. *)
Theorem Pull_argv (os : list Setter) (st : State) :
  let argv := if List.existsb isRebase os
              then ["pull"; "--rebase"] else ["pull"] in
  exists err st',
    Pull (List.map setter os) st = (Returns err, st')
    /\ trace (sys st')
       = (trace (sys st) ++ [gitIn (RepoDir (self st)) argv])%list.
Proof.
  cbn zeta. unfold Pull, getOpts, bind, ret.
  destruct (fold_setters os {| Rebase := false; CloneDir := "" |}) as [R _].
  cbn zeta in R. rewrite R. cbn [Rebase orb].
  destruct (List.existsb isRebase os); cbn [app];
    match goal with
    | |- context [doGit ?a st] =>
        destruct (doGit_total a st) as ([o e] & w & ->)
    end; cbv beta iota; now eexists _, _.
Qed.

(** X11.  The handle [New] returns lives in the parent directory joined
    with the last clone directory given, and with the short name when
    none is given or the last one is empty. *)
Theorem New_directory (url branch workDir : string) (os : list Setter)
  (s s' : Sys) (r : Repo) (err : option error) :
  New url branch workDir (List.map setter os) s = (Returns (Some r, err), s') ->
  URL r = url
  /\ WorkDir r = workDir
  /\ RepoDir r
     = path_Join workDir
         (if String.eqb (List.last (cloneDirs os) "") "" then Name r
          else List.last (cloneDirs os) "").
Proof.
  intro H. apply New_handle in H as (name & _ & ->).
  unfold handleFor, getOpts. cbn [URL WorkDir RepoDir Name].
  destruct (fold_setters os {| Rebase := false; CloneDir := "" |}) as [_ C].
  cbn zeta in C. rewrite C. now repeat split.
Qed.

(** *** The commands of the composite operations *)

(** X12.  [AddCommitPush] runs [git add .] first.  If that fails, it
    returns its error in the state the add left: nothing more has run.
    If it succeeds, [git commit -m msg] runs next; if that fails, its
    error is returned in the state it left, and no push has run.  If
    both succeed, [git push] runs and its error result is the result. *)
Theorem AddCommitPush_stops (msg : string) (st : State) :
  let dir := RepoDir (self st) in
  exists text1 err1 st1,
    doGit ["add"; "."] st = (Returns (text1, err1), st1)
    /\ trace (sys st1) = (trace (sys st) ++ [gitIn dir ["add"; "."]])%list
    /\ match err1 with
       | Some _ => AddCommitPush msg st = (Returns err1, st1)
       | None =>
           exists text2 err2 st2,
             doGit ["commit"; "-m"; msg] st1 = (Returns (text2, err2), st2)
             /\ trace (sys st2)
                = (trace (sys st)
                   ++ [gitIn dir ["add"; "."];
                       gitIn dir ["commit"; "-m"; msg]])%list
             /\ match err2 with
                | Some _ => AddCommitPush msg st = (Returns err2, st2)
                | None =>
                    exists text3 err3 st3,
                      doGit ["push"] st2 = (Returns (text3, err3), st3)
                      /\ trace (sys st3)
                         = (trace (sys st)
                            ++ [gitIn dir ["add"; "."];
                                gitIn dir ["commit"; "-m"; msg];
                                gitIn dir ["push"]])%list
                      /\ AddCommitPush msg st = (Returns err3, st3)
                end
       end.
Proof.
  cbn zeta. unfold AddCommitPush, Add, Commit, Push, bind, ret.
  destruct (doGit_total ["add"; "."] st) as ([t1 e1] & w1 & E1).
  rewrite E1. cbv beta iota. eexists t1, e1, _.
  split; [reflexivity|]. split; [reflexivity|].
  destruct e1 as [e1|]; [reflexivity|].
  set (st1 := ran st (gitIn (RepoDir (self st)) ["add"; "."]) w1).
  destruct (doGit_total ["commit"; "-m"; msg] st1) as ([t2 e2] & w2 & E2).
  rewrite E2. cbv beta iota. eexists t2, e2, _.
  split; [reflexivity|].
  split; [cbn; now rewrite <- app_assoc|].
  destruct e2 as [e2|]; [reflexivity|].
  set (st2 := ran st1 (gitIn (RepoDir (self st1)) ["commit"; "-m"; msg]) w2).
  destruct (doGit_total ["push"] st2) as ([t3 e3] & w3 & E3).
  rewrite E3. eexists t3, e3, _.
  split; [reflexivity|].
  split; [cbn; now rewrite <- !app_assoc | reflexivity].
Qed.

(** X13.  Without its parent directory [Clone] runs nothing: when the
    stat of [WorkDir] fails it returns, in the state it was called in,
    the error [parent dir does not exist] if the directory is missing
    and the stat error wrapped otherwise. *)
Theorem Clone_without_parent (st : State) (e : error) :
  os_Stat (world (sys st)) (WorkDir (self st)) = Some e ->
  Clone st
  = (Returns (Some (if IsNotExist (Some e)
                    then errorsNew "parent dir does not exist"
                    else withMessage e "failed to stat parent dir")), st).
Proof.
  intro H. unfold Clone, bind, field, osStat, ret. cbv beta iota.
  rewrite H. destruct (IsNotExist (Some e)); reflexivity.
Qed.

(** X14.  With its parent directory [Clone] runs [git clone URL RepoDir]
    there.  If the clone fails, [Clone] returns its error, wrapped with
    the text it printed, in the state the clone left: nothing more has
    run.  If it succeeds, [git remote set-url origin URL] runs in the
    repository directory, and its error result is the result of
    [Clone]. *)
Theorem Clone_commands (st : State) :
  os_Stat (world (sys st)) (WorkDir (self st)) = None ->
  let r := self st in
  let clone := gitIn (WorkDir r) ["clone"; URL r; RepoDir r] in
  let setURL := gitIn (RepoDir r) ["remote"; "set-url"; "origin"; URL r] in
  exists out cerr w,
    CombinedOutput (world (sys st)) clone = ((out, cerr), w)
    /\ trace (sys (ran st clone w)) = (trace (sys st) ++ [clone])%list
    /\ match cerr with
       | Some e =>
           Clone st
           = (Returns (Some (withMessage e ("failed to clone repo: " ++ out))),
              ran st clone w)
       | None =>
           exists text err st2,
             doGit ["remote"; "set-url"; "origin"; URL r] (ran st clone w)
             = (Returns (text, err), st2)
             /\ trace (sys st2) = (trace (sys st) ++ [clone; setURL])%list
             /\ Clone st = (Returns err, st2)
       end.
Proof.
  intro H. cbn zeta. unfold Clone, bind, field, osStat, gitCommand, ret.
  cbv beta iota. rewrite H.
  destruct (CombinedOutput _ _) as [[out [e|]] w]; cbv beta iota.
  - exists out, (Some e), w. now repeat split.
  - exists out, None, w. split; [reflexivity|]. split; [reflexivity|].
    change (self (ran st (gitIn (WorkDir (self st))
                            ["clone"; URL (self st); RepoDir (self st)]) w))
      with (self st).
    match goal with
    | |- context [doGit ?a ?s] =>
        destruct (doGit_total a s) as ([o e] & w' & E)
    end.
    rewrite E. cbv beta iota. eexists o, e, _. split; [reflexivity|].
    split; [cbn; now rewrite <- app_assoc | reflexivity].
Qed.

(** X15.  [IsClean] runs [git fetch] first.  If the fetch fails, the
    answer is false in the state the fetch left: no status has run.  If
    it succeeds, [git status] runs next and [IsClean] answers in the
    state the status left: nothing else has run. *)
Theorem IsClean_commands (st : State) :
  let dir := RepoDir (self st) in
  exists text1 err1 st1,
    doGit ["fetch"] st = (Returns (text1, err1), st1)
    /\ trace (sys st1) = (trace (sys st) ++ [gitIn dir ["fetch"]])%list
    /\ match err1 with
       | Some _ => IsClean st = (Returns false, st1)
       | None =>
           exists res st2 clean,
             doGit ["status"] st1 = (Returns res, st2)
             /\ trace (sys st2)
                = (trace (sys st)
                   ++ [gitIn dir ["fetch"]; gitIn dir ["status"]])%list
             /\ IsClean st = (Returns clean, st2)
       end.
Proof.
  cbn zeta. unfold IsClean, bind, ret.
  destruct (doGit_total ["fetch"] st) as ([t1 e1] & w1 & E1).
  rewrite E1. cbv beta iota. eexists t1, e1, _.
  split; [reflexivity|]. split; [reflexivity|].
  destruct e1 as [e1|]; [reflexivity|].
  destruct (doGit_total ["status"]
              (ran st (gitIn (RepoDir (self st)) ["fetch"]) w1))
    as ([t2 e2] & w2 & E2).
  rewrite E2. cbv beta iota.
  assert (T : trace (sys (ran (ran st (gitIn (RepoDir (self st)) ["fetch"]) w1)
                            (gitIn
                               (RepoDir
                                  (self (ran st (gitIn (RepoDir (self st))
                                                   ["fetch"]) w1)))
                               ["status"]) w2))
              = (trace (sys st)
                 ++ [gitIn (RepoDir (self st)) ["fetch"];
                     gitIn (RepoDir (self st)) ["status"]])%list)
    by (cbn; now rewrite <- app_assoc).
  destruct e2 as [e2|]; [now eexists _, _, false|].
  destruct (_ && _); [now eexists _, _, true | now eexists _, _, false].
Qed.

(** *** Failures *)

Lemma doGit_failed_text (args : list string) (st st' : State)
  (text : string) (e : error) :
  doGit args st = (Returns (text, Some e), st') -> text = "".
Proof.
  unfold doGit, bind, field, osStat, gitCommand, ret. cbv beta iota.
  destruct (CombinedOutput _ _) as [[o [e'|]] w]; cbv beta iota; congruence.
Qed.

(** [historyLoop] returns, having printed at most. *)
Lemma historyLoop_quiet (lines : list string) (commitID : Z)
  (commit : string) (st : State) :
  exists id st2,
    historyLoop lines commitID commit st = (Returns id, st2)
    /\ sameButStdout st st2.
Proof.
  revert commitID commit st.
  induction lines as [|line lines IH]; intros commitID commit st;
    cbn [historyLoop].
  - exists commit, st. split; [reflexivity | now repeat split].
  - destruct (strings.HasPrefix line "commit"); [|apply IH].
    unfold bind at 1, Println at 1. cbv beta iota.
    destruct (commitID + 1 =? 2).
    + unfold bind, lift, ret, Println.
      destruct (identifier_total line) as [id ->].
      eexists _, _. split; [reflexivity|].
      eapply sameButStdout_trans; apply sameButStdout_printed.
    + destruct (IH (commitID + 1) commit
                  (printed ("commitID: " ++ " " ++ itoa (commitID + 1)
                            ++ String strings.nl "") st))
        as (id & st2 & E & S).
      exists id, st2. split; [exact E|].
      eapply sameButStdout_trans; [apply sameButStdout_printed | exact S].
Qed.

(** X16.  A query that returns an error returns the zero value with it:
    the empty string from [doGit], [Branch], [CurrentCommit],
    [ShowForCommit], [ShowDeletedFile] and [CommitAuthor], no record
    from [DiffStatus]; the text a failed command printed is in the error
    only. *)
Theorem zero_value_on_error :
  (forall args st text e st',
     doGit args st = (Returns (text, Some e), st') -> text = "")
  /\ (forall st text e st',
        Branch st = (Returns (text, Some e), st') -> text = "")
  /\ (forall st text e st',
        CurrentCommit st = (Returns (text, Some e), st') -> text = "")
  /\ (forall c1 c2 st diffs e st',
        DiffStatus c1 c2 st = (Returns (diffs, Some e), st') -> diffs = [])
  /\ (forall commit path st text e st',
        ShowForCommit commit path st = (Returns (text, Some e), st') ->
        text = "")
  /\ (forall path st text e st',
        ShowDeletedFile path st = (Returns (text, Some e), st') -> text = "")
  /\ (forall commit st text e st',
        CommitAuthor commit st = (Returns (text, Some e), st') -> text = "").
Proof.
  repeat match goal with |- _ /\ _ => split end.
  - intros args st text e st'. apply doGit_failed_text.
  - intros st text e st'. unfold Branch, bind, ret, lift.
    destruct (doGit ["branch"] st) as [[[o [e1|]]|] st1]; cbv beta iota;
      try congruence.
    destruct (branchLoop _) as [[b|]|]; congruence.
  - intros st text e st'. unfold CurrentCommit, bind, ret.
    destruct (doGit _ st) as [[[o [e1|]]|] st1]; cbv beta iota; congruence.
  - intros c1 c2 st diffs e st'. unfold DiffStatus, bind, ret, lift.
    destruct (doGit _ st) as [[[o [e1|]]|] st1]; cbv beta iota;
      try congruence.
    destruct (diffLoop _ _); congruence.
  - intros commit path st text e st'. apply doGit_failed_text.
  - intros path st text e st'. unfold ShowDeletedFile, bind at 1, ret.
    destruct (doGit _ st) as [[[o [e1|]]|] st1]; cbv beta iota;
      try congruence.
    unfold bind at 1, Println at 1. cbv beta iota. unfold bind.
    destruct (historyLoop_quiet (strings.Split o strings.nl) 0 ""
                (printed ("History: " ++ " " ++ o ++ String strings.nl "") st1))
      as (id & st2 & -> & _).
    apply doGit_failed_text.
  - intros commit st text e st'. unfold CommitAuthor, bind, ret.
    destruct (doGit _ st) as [[[o [e1|]]|] st1]; cbv beta iota; congruence.
Qed.

(** *** Deleted-file recovery, the other cases *)

(** The loop on lines none of which starts with [commit]. *)
Lemma historyLoop_none (lines : list string) (commitID : Z)
  (commit : string) (st : State) :
  List.filter (fun line => strings.HasPrefix line "commit") lines = [] ->
  historyLoop lines commitID commit st = (Returns commit, st).
Proof.
  induction lines as [|line lines IH]; intro H; [reflexivity|].
  cbn [List.filter] in H. cbn [historyLoop].
  destruct (strings.HasPrefix line "commit"); [discriminate | now apply IH].
Qed.

(** The loop on lines one of which starts with [commit]. *)
Lemma historyLoop_one (lines : list string) (commit : string) (st : State)
  (first : string) :
  List.filter (fun line => strings.HasPrefix line "commit") lines = [first] ->
  exists st2,
    historyLoop lines 0 commit st = (Returns commit, st2)
    /\ sameButStdout st st2.
Proof.
  revert st. induction lines as [|line lines IH]; intros st H; [discriminate|].
  cbn [List.filter] in H. cbn [historyLoop].
  destruct (strings.HasPrefix line "commit"); [|now apply IH].
  injection H as _ H. change (0 + 1 =? 2) with false. cbv beta iota.
  unfold bind, Println. rewrite (historyLoop_none _ _ _ _ H).
  eexists. split; [reflexivity | apply sameButStdout_printed].
Qed.

(** X17.  When the log succeeded and fewer than two of its lines start
    with [commit], the identifier stays empty: [ShowDeletedFile] is
    [ShowForCommit] with the empty identifier, and the command it runs
    is [git show :path]. *)
Theorem ShowDeletedFile_short_history (path out : string) (st st1 : State) :
  doGit ["log"; "--full-history"; "-2"; "--"; path] st
  = (Returns (out, None), st1) ->
  (List.length (commitLines out) < 2)%nat ->
  exists st2,
    sameButStdout st1 st2
    /\ ShowDeletedFile path st = ShowForCommit "" path st2
    /\ trace (sys (snd (ShowDeletedFile path st)))
       = (trace (sys st1)
          ++ [gitIn (RepoDir (self st)) ["show"; (":" ++ path)%string]])%list.
Proof.
  intros Elog Hshort.
  assert (L : exists st2,
             historyLoop (strings.Split out strings.nl) 0 ""
               (printed ("History: " ++ " " ++ out ++ String strings.nl "") st1)
             = (Returns "", st2)
             /\ sameButStdout st1 st2).
  { unfold commitLines in Hshort.
    destruct (List.filter _ (strings.Split out strings.nl))
      as [|first [|second others]] eqn:F.
    - rewrite (historyLoop_none _ _ _ _ F). eexists.
      split; [reflexivity | apply sameButStdout_printed].
    - destruct (historyLoop_one _ ""
                  (printed ("History: " ++ " " ++ out ++ String strings.nl "")
                     st1) first F) as (st2 & E & S).
      exists st2. split; [exact E|].
      eapply sameButStdout_trans; [apply sameButStdout_printed | exact S].
    - cbn [List.length] in Hshort. lia. }
  destruct L as (st2 & Eloop & (Hself & Hworld & Htrace)).
  assert (E : ShowDeletedFile path st = ShowForCommit "" path st2).
  { unfold ShowDeletedFile, bind. rewrite Elog. cbv beta iota.
    unfold Println at 1. cbv beta iota. now rewrite Eloop. }
  exists st2. split; [now repeat split|]. split; [exact E|].
  rewrite E. unfold ShowForCommit.
  destruct (doGit_total ["show"; "" ++ ":" ++ path] st2) as (res & w & ->).
  cbn [snd ran sys trace]. rewrite Htrace, Hself.
  pose proof (preserves_doGit
                ["log"; "--full-history"; "-2"; "--"; path] st) as P.
  rewrite Elog in P. cbn [snd] in P. now rewrite P.
Qed.

(** X18.  [ShowDeletedFile] runs the log first.  If the log fails, it
    returns the empty string and the error of the log in the state the
    log left: no [git show] has run.  If the log succeeds, then whatever
    its text is, exactly one [git show id:path] runs next, for some
    identifier, and its result is the result of [ShowDeletedFile]. *)
Theorem ShowDeletedFile_commands (path : string) (st : State) :
  let dir := RepoDir (self st) in
  let log := gitIn dir ["log"; "--full-history"; "-2"; "--"; path] in
  exists out err st1,
    doGit ["log"; "--full-history"; "-2"; "--"; path] st
    = (Returns (out, err), st1)
    /\ trace (sys st1) = (trace (sys st) ++ [log])%list
    /\ match err with
       | Some _ => ShowDeletedFile path st = (Returns ("", err), st1)
       | None =>
           exists id st2 res st3,
             sameButStdout st1 st2
             /\ ShowForCommit id path st2 = (Returns res, st3)
             /\ trace (sys st3)
                = (trace (sys st)
                   ++ [log;
                       gitIn dir ["show"; (id ++ ":" ++ path)%string]])%list
             /\ ShowDeletedFile path st = (Returns res, st3)
       end.
Proof.
  cbn zeta.
  destruct (doGit_total ["log"; "--full-history"; "-2"; "--"; path] st)
    as ([out err] & w & E).
  eexists out, err, _. split; [exact E|]. split; [reflexivity|].
  destruct err as [e|].
  - unfold ShowDeletedFile, bind, ret. now rewrite E.
  - destruct (historyLoop_quiet (strings.Split out strings.nl) 0 ""
                (printed ("History: " ++ " " ++ out ++ String strings.nl "")
                   (ran st (gitIn (RepoDir (self st))
                              ["log"; "--full-history"; "-2"; "--"; path]) w)))
      as (id & st2 & L & S).
    assert (X : ShowDeletedFile path st = ShowForCommit id path st2).
    { unfold ShowDeletedFile, bind. rewrite E. cbv beta iota.
      unfold Println at 1. cbv beta iota. now rewrite L. }
    assert (S1 : sameButStdout
                   (ran st (gitIn (RepoDir (self st))
                              ["log"; "--full-history"; "-2"; "--"; path]) w)
                   st2)
      by (eapply sameButStdout_trans; [apply sameButStdout_printed | exact S]).
    pose proof S1 as (Hself & Hworld & Htrace).
    destruct (doGit_total ["show"; id ++ ":" ++ path] st2) as (res & w' & E2).
    eexists id, st2, res, _.
    split; [exact S1|]. split; [exact E2|].
    split; [|now rewrite X].
    cbn [ran sys trace]. rewrite Htrace, Hself. cbn.
    now rewrite <- app_assoc.
Qed.

(** *** Diff status, the names and the way back *)



(** A plain byte starts no white-space rune. *)
Lemma plainByte_lead (c b1 b2 : ascii) :
  plainByte c = true ->
  strings.asciiSpace c = false
  /\ strings.space2 c b1 = false
  /\ strings.space3 c b1 b2 = false.
Proof.
  destruct c as [[] [] [] [] [] [] [] []]; intro H;
    try discriminate H; repeat split; reflexivity.
Qed.

Lemma spaceWidth_plain (c : ascii) (s : string) :
  plainByte c = true -> strings.spaceWidth (String c s) = 0%nat.
Proof.
  intro H. unfold strings.spaceWidth.
  destruct s as [|b1 [|b2 s]].
  - destruct (plainByte_lead c c c H) as (-> & _). reflexivity.
  - destruct (plainByte_lead c b1 c H) as (-> & -> & _). reflexivity.
  - destruct (plainByte_lead c b1 b2 H) as (-> & -> & ->). reflexivity.
Qed.

(** A text of plain bytes is one field. *)
Lemma scanFields_plain (s : string) :
  plain s = true -> s <> "" -> strings.scanFields 0 s = ([s], true).
Proof.
  induction s as [|c s IH]; intros H N; [congruence|].
  cbn [plain] in H. apply andb_true_iff in H as [Hc Hs].
  cbn [strings.scanFields]. rewrite (spaceWidth_plain c s Hc).
  destruct s as [|c' s'].
  - reflexivity.
  - rewrite (IH Hs) by discriminate. reflexivity.
Qed.

Lemma plain_no_nl (s : string) :
  plain s = true -> occurs strings.nl s = false.
Proof.
  induction s as [|c s IH]; intro H; [reflexivity|].
  cbn [plain] in H. apply andb_true_iff in H as [Hc Hs].
  cbn [occurs]. rewrite (IH Hs), orb_false_r.
  destruct (Ascii.eqb_spec c strings.nl) as [-> |]; [discriminate Hc|].
  reflexivity.
Qed.

Lemma Split_line (line rest : string) (sep : ascii) :
  occurs sep line = false ->
  strings.Split (line ++ String sep rest) sep = line :: strings.Split rest sep.
Proof.
  induction line as [|c line IH]; intro H.
  - cbn. now rewrite Ascii.eqb_refl.
  - cbn [occurs] in H. apply orb_false_iff in H as [Hc Hl].
    cbn [append strings.Split]. rewrite Hc, (IH Hl). reflexivity.
Qed.

(** A code of one plain byte, a tab and a plain name are two fields. *)
Lemma Fields_entry (c : ascii) (name : string) :
  plainByte c = true -> plain name = true -> name <> "" ->
  strings.Fields (String c (String strings.tab name)) = [String c ""; name].
Proof.
  intros Hc P N. unfold strings.Fields. cbn [strings.scanFields].
  rewrite (spaceWidth_plain c _ Hc).
  replace (strings.spaceWidth (String strings.tab name)) with 1%nat
    by reflexivity.
  rewrite (scanFields_plain name P N). reflexivity.
Qed.

(** The line of a printable record is accepted as that record. *)
Lemma accepted_rendered (d : DiffStat) :
  printable d ->
  accepted (codeOf (Stat d) ++ String strings.tab (Filename d)) = Some d
  /\ occurs strings.nl (codeOf (Stat d) ++ String strings.tab (Filename d))
     = false.
Proof.
  destruct d as [kind name]. intros (K & N & P). cbn [Stat Filename] in *.
  pose proof (plain_no_nl name P) as L.
  unfold accepted.
  destruct K as [-> | [-> | ->]].
  - change (codeOf StatNew) with "A". cbn [append].
    rewrite (Fields_entry "A" name eq_refl P N).
    split; [reflexivity|]. cbn [occurs]. now rewrite L.
  - change (codeOf StatModified) with "M". cbn [append].
    rewrite (Fields_entry "M" name eq_refl P N).
    split; [reflexivity|]. cbn [occurs]. now rewrite L.
  - change (codeOf StatDeleted) with "D". cbn [append].
    rewrite (Fields_entry "D" name eq_refl P N).
    split; [reflexivity|]. cbn [occurs]. now rewrite L.
Qed.

Lemma records_render (ds : list DiffStat) :
  List.Forall printable ds ->
  records (strings.Split (render ds) strings.nl) = ds.
Proof.
  induction 1 as [|d ds Hd _ IH]; [reflexivity|].
  cbn [render]. destruct (accepted_rendered d Hd) as [A L].
  rewrite <- StringFacts.append_assoc, (Split_line _ _ _ L).
  cbn [records]. now rewrite A, IH.
Qed.

(** X20.  [DiffStatus] reads back what a name-status diff prints: on the
    text that has, for each record of a list, the line code, tab, file
    name, with kinds among the three of [statMap] and names that are not
    empty and hold only ASCII bytes other than white space, it returns
    that list, in that order, and no error. *)
Theorem DiffStatus_reads_back (c1 c2 : string) (st st' : State)
  (ds : list DiffStat) :
  doGit ["diff"; "--name-status"; c1; c2] st
  = (Returns (render ds, None), st') ->
  List.Forall printable ds ->
  DiffStatus c1 c2 st = (Returns (ds, None), st').
Proof.
  intros E P. rewrite (DiffStatus_records c1 c2 (render ds) st st' E).
  now rewrite records_render.
Qed.

End OperationFacts.

(** ** Runs on the scripted host *)

Module Runs.

Import Scripted.

(** C1 at three checkouts: none yet (a clone, started in the parent
    directory), one that is behind (a pull with rebase), one that is
    clean (two commands, neither a clone nor a pull). *)
Lemma CloneOrPull_decides_witness :
  (@CloneOrPull host fresh = @Clone host fresh
   /\ exists rest,
        trace (sys (snd (@CloneOrPull host fresh)))
        = gitIn "/work"
            ["clone"; "https://example.org/team/tool.git"; "/work/tool"]
          :: rest)
  /\ trace (sys (snd (@CloneOrPull host stale)))
     = [gitIn "/work/tool" ["fetch"]; gitIn "/work/tool" ["status"];
        gitIn "/work/tool" ["pull"; "--rebase"]]
  /\ (fst (@CloneOrPull host current) = Returns None
      /\ trace (sys (snd (@CloneOrPull host current)))
         = [gitIn "/work/tool" ["fetch"]; gitIn "/work/tool" ["status"]]).
Proof.
  split; [|split].
  - destruct (@CloneOrPull_decides host fresh) as [H _].
    destruct (H eq_refl) as [E T]. split; [exact E | exact (T eq_refl)].
  - destruct (@CloneOrPull_decides host stale) as (_ & H & _).
    destruct (H eq_refl (snd (@IsClean host stale)) eq_refl) as [_ T].
    exact T.
  - destruct (@CloneOrPull_decides host current) as (_ & _ & H).
    destruct (H eq_refl (snd (@IsClean host current)) eq_refl) as [E T].
    split; [now rewrite E | now rewrite E].
Defined.

(** C2 fails as worded: in [oddHistory] the second line that starts
    with [commit] is [commitdef456], which has no space, and nothing
    follows a first space of it.  ([ShowDeletedFile] asks for the
    whole line, [commitdef456:f.txt].) *)
Lemma second_commit_line_without_space :
  ~ @takesAfterFirstSpace host "f.txt" oddLogged.
Proof.
  intro H.
  destruct (H oddHistory (snd (@doGit host
                                 ["log"; "--full-history"; "-2"; "--"; "f.txt"]
                                 oddLogged))
              "commit abc123" "commitdef456" ["commit 789abc"]
              eq_refl eq_refl)
    as (id & st2 & (before & _ & E) & _).
  assert (O : occurs " " "commitdef456" = true)
    by (rewrite E; apply StringFacts.occurs_app).
  discriminate O.
Qed.

(** What [ShowDeletedFile] runs on [oddHistory]. *)
Lemma odd_history_run :
  trace (sys (snd (@ShowDeletedFile host "f.txt" oddLogged)))
  = [gitIn "/work/tool" ["log"; "--full-history"; "-2"; "--"; "f.txt"];
     gitIn "/work/tool" ["show"; "commitdef456:f.txt"]].
Proof. reflexivity. Qed.

(** C2 on the history of the specification: [commit abc123], later
    [commit def456]; the identifier is [def456]. *)
Lemma ShowDeletedFile_second_commit_witness :
  (exists st2,
     @ShowDeletedFile host "f.txt" logged
     = @ShowForCommit host "def456" "f.txt" st2)
  /\ trace (sys (snd (@ShowDeletedFile host "f.txt" logged)))
     = [gitIn "/work/tool" ["log"; "--full-history"; "-2"; "--"; "f.txt"];
        gitIn "/work/tool" ["show"; "def456:f.txt"]].
Proof.
  destruct (@ShowDeletedFile_second_commit host "f.txt" historyText logged
              (snd (@doGit host
                      ["log"; "--full-history"; "-2"; "--"; "f.txt"] logged))
              "commit abc123" "commit def456" [] "def456" eq_refl eq_refl
              (ex_intro _ "commit" (conj eq_refl eq_refl)))
    as (st2 & _ & E & T).
  split; [now exists st2 | exact T].
Defined.

(** C3 fails on a lone star: [Branch] panics on the slice [line[2:]]
    of a line of one byte. *)
Lemma Branch_panics_on_lone_star :
  fst (@Branch host loneStar) = Panics.
Proof. reflexivity. Qed.

(** A star and a space with nothing after them give the empty name and
    no error. *)
Lemma Branch_empty_name :
  fst (@Branch host (start ["/work"] [ok (lines ["* "])]))
  = Returns ("", None).
Proof. reflexivity. Qed.

(** The listing of the specification gives [main]. *)
Lemma Branch_listing :
  fst (@Branch host listing) = Returns ("main", None).
Proof. reflexivity. Qed.

(** C4 fails as worded: the empty URL has no segment but the empty
    one, and [New] does not reject it. *)
Lemma empty_URL_not_rejected :
  lastSegment "" "" /\ ~ @rejectsURL host "" "main" "/work" [] bare.
Proof.
  split.
  - split; [reflexivity | now left].
  - intros (e & s' & E & _). vm_compute in E. discriminate E.
Qed.

(** C4 as the code has it, on the empty URL: [New] reconciles in the
    parent directory and returns the handle without a name. *)
Lemma New_accepts_empty_segment_witness :
  @New host "" "main" "/work" [] bare
  = (Returns (Some {| URL := ""; Name := ""; WorkDir := "/work";
                      RepoDir := "/work" |}, None),
     {| world := {| existing := ["/work"; "/work/.git"]; replies := [] |}
                 : @World host;
        trace := [gitIn "/work" ["fetch"]; gitIn "/work" ["status"];
                  gitIn "/work" ["branch"]];
        stdout := [] |}).
Proof.
  pose (st0 := {| self := @handleFor host "" "/work" [] ""; sys := bare |}).
  exact (@New_accepts_empty_segment host "" "main" "/work" [] bare
           (snd (@CloneOrPull host st0))
           (snd (@Branch host (snd (@CloneOrPull host st0))))
           (conj eq_refl (or_introl eq_refl)) eq_refl eq_refl).
Defined.

(** C5 on a clean checkout and on one whose fetch fails. *)
Lemma IsClean_swallows_witness :
  fst (@IsClean host current) = Returns true
  /\ fst (@IsClean host offline) = Returns false.
Proof.
  split.
  - destruct (@IsClean_swallows host current) as (clean & st' & E & _ & _ & H & _).
    destruct (H "" (snd (@doGit host ["fetch"] current)) cleanStatus
                (snd (@doGit host ["status"]
                        (snd (@doGit host ["fetch"] current))))
                eq_refl eq_refl) as [_ [_ Hc]].
    rewrite E. cbn [fst]. rewrite Hc; [reflexivity|]. split.
    + exists ("On branch main" ++ String strings.nl "Your branch is "),
        (" with 'origin/main'." ++ String strings.nl
           ("nothing to commit, working directory clean"
            ++ String strings.nl "")).
      reflexivity.
    + exists ("On branch main" ++ String strings.nl
                ("Your branch is up-to-date with 'origin/main'."
                 ++ String strings.nl "nothing to commit, ")),
        (String strings.nl "").
      reflexivity.
  - destruct (@IsClean_swallows host offline) as (clean & st' & E & H & _).
    destruct (H "" (withMessage exitStatus1
                      ("failed to run command 'git fetch' on repo tool: "
                       ++ "fatal: unable to access the remote"))
                (snd (@doGit host ["fetch"] offline)) eq_refl) as [-> _].
    now rewrite E.
Defined.

(** C6 on the diff of the specification: three records, the rename
    passed over. *)
Lemma DiffStatus_kinds_witness :
  exists diffs,
    fst (@DiffStatus host "v1" "v2" diffed) = Returns (diffs, None)
    /\ List.length diffs = 3%nat
    /\ forall d, In d diffs ->
         Stat d = StatNew \/ Stat d = StatModified \/ Stat d = StatDeleted.
Proof.
  destruct (@DiffStatus_kinds host "v1" "v2" diffText diffed
              (snd (@doGit host ["diff"; "--name-status"; "v1"; "v2"] diffed))
              eq_refl)
    as (diffs & E & K & L).
  exists diffs. split; [now rewrite E|]. split; [exact L|].
  intros d Hd. exact (proj1 (K d Hd)).
Defined.

(** C7 on a URL that ends in [.git] and on one that does not. *)
Lemma repoName_last_segment_witness :
  repoName "https://example.org/team/tool.git" = Returns "tool"
  /\ repoName "https://example.org/team/tool" = Returns "tool".
Proof.
  split.
  - destruct (@repoName_last_segment host
                "https://example.org/team/tool.git")
      as (seg & Hseg & H & _).
    apply H. apply lastSegment_Split in Hseg.
    rewrite <- Hseg. reflexivity.
  - destruct (@repoName_last_segment host "https://example.org/team/tool")
      as (seg & Hseg & _ & H & _).
    apply lastSegment_Split in Hseg. subst seg.
    rewrite H; [reflexivity|].
    intros base E.
    assert (S : strings.HasSuffix "tool" ".git" = true).
    { apply StringFacts.HasSuffix_iff. exists base. exact E. }
    discriminate S.
Defined.

(** C8 on a text with spaces around the identifier and two final line
    feeds: one line feed goes, the rest stays. *)
Lemma CurrentCommit_trims_witness :
  fst (@CurrentCommit host revision)
  = Returns (" 4f2a c1 " ++ String strings.nl "", None).
Proof.
  destruct (@CurrentCommit_trims host revision
              (snd (@doGit host ["rev-parse"; "HEAD"] revision))
              (lines [" 4f2a c1 "; ""]) eq_refl) as [H _].
  rewrite (H (" 4f2a c1 " ++ String strings.nl "") eq_refl).
  reflexivity.
Defined.

(** C10 on the diff of the specification: the records in the order of
    the lines. *)
Lemma DiffStatus_order_witness :
  exists d0 d1 d2,
    fst (@DiffStatus host "v1" "v2" diffed) = Returns ([d0; d1; d2], None)
    /\ accepted (entry "A" "new.txt") = Some d0
    /\ accepted (entry "M" "old.txt") = Some d1
    /\ accepted (entry "D" "gone.txt") = Some d2.
Proof.
  destruct (@DiffStatus_order host "v1" "v2" diffText diffed
              (snd (@doGit host ["diff"; "--name-status"; "v1"; "v2"] diffed))
              eq_refl)
    as (diffs & E & L & K).
  destruct (K 0%nat _ eq_refl) as (d0 & N0 & A0).
  destruct (K 1%nat _ eq_refl) as (d1 & N1 & A1).
  destruct (K 2%nat _ eq_refl) as (d2 & N2 & A2).
  exists d0, d1, d2. rewrite E.
  destruct diffs as [|x0 [|x1 [|x2 [|x3 rest]]]]; try discriminate L.
  injection N0 as ->. injection N1 as ->. injection N2 as ->.
  repeat split; assumption.
Defined.

End Runs.

(** ** More runs on the scripted host *)

Module MoreRuns.

Import Scripted.

(** X5 on the clean checkout in the parent directory: a handle, no error. *)
Lemma New_handle_or_error_witness :
  exists h,
    fst (@New host "" "main" "/work" [] bare) = Returns (Some h, None).
Proof.
  destruct (@New host "" "main" "/work" [] bare) as [[[r err]|] s'] eqn:E;
    [|vm_compute in E; discriminate E].
  destruct (@New_handle_or_error host "" "main" "/work" [] bare s' r err E)
    as [(h & -> & ->) | (-> & e & ->)].
  - now exists h.
  - vm_compute in E. discriminate E.
Defined.

(** X6 on a checkout that is on develop when main is wanted: the last
    command is the checkout. *)
Lemma New_checkout_when_needed_witness :
  trace (snd (@New host toolURL "main" "/work" [] onDevelop))
  = [gitIn "/work/tool" ["fetch"]; gitIn "/work/tool" ["status"];
     gitIn "/work/tool" ["branch"]; gitIn "/work/tool" ["checkout"; "main"]].
Proof.
  pose (st0 := {| self := @handleFor host toolURL "/work" [] "tool";
                  sys := onDevelop |}).
  destruct (@New_checkout_when_needed host toolURL "main" "/work" []
              onDevelop "tool" "develop"
              (snd (@CloneOrPull host st0))
              (snd (@Branch host (snd (@CloneOrPull host st0))))
              eq_refl eq_refl eq_refl) as [_ H].
  destruct H as (err & st3 & _ & T & E); [discriminate|].
  rewrite E. cbn [snd]. rewrite T. reflexivity.
Defined.

(** X7 on a checkout whose pull fails: the error of the pull, and no
    branch listing. *)
Lemma New_stops_at_failure_witness :
  exists e,
    fst (@New host toolURL "main" "/work" [] conflicting)
    = Returns (None, Some e)
    /\ trace (snd (@New host toolURL "main" "/work" [] conflicting))
       = [gitIn "/work/tool" ["fetch"]; gitIn "/work/tool" ["status"];
          gitIn "/work/tool" ["pull"; "--rebase"]].
Proof.
  pose (st0 := {| self := @handleFor host toolURL "/work" [] "tool";
                  sys := conflicting |}).
  destruct (@New_stops_at_failure host toolURL "main" "/work" [] conflicting
              "tool" eq_refl) as [H _].
  eexists. rewrite (H _ (snd (@CloneOrPull host st0)) eq_refl).
  split; reflexivity.
Defined.

(** X8 with nothing cloned yet. *)
Lemma New_clones_first_witness :
  exists rest,
    trace (snd (@New host toolURL "main" "/work" [] empty))
    = gitIn "/work" ["clone"; toolURL; "/work/tool"] :: rest.
Proof.
  exact (@New_clones_first host toolURL "main" "/work" [] empty "tool"
           eq_refl eq_refl eq_refl).
Defined.

(** X11 with two clone directories given: the last one counts. *)
Lemma New_directory_witness :
  exists r,
    fst (@New host toolURL "main" "/work"
           (List.map setter [WithCloneDir "first"; WithRebase;
                             WithCloneDir "copy"]) copied)
    = Returns (Some r, None)
    /\ RepoDir r = "/work/copy".
Proof.
  destruct (@New host toolURL "main" "/work"
              (List.map setter [WithCloneDir "first"; WithRebase;
                                WithCloneDir "copy"]) copied)
    as [[[[r|] err]|] s'] eqn:E; try (vm_compute in E; discriminate E).
  destruct (@New_directory host toolURL "main" "/work"
              [WithCloneDir "first"; WithRebase; WithCloneDir "copy"]
              copied s' r err E) as (_ & _ & D).
  pose proof E as E'. vm_compute in E'. injection E' as _ He _.
  exists r. split; [cbn [fst]; now rewrite <- He | exact D].
Defined.

(** X13 without the parent directory. *)
Lemma Clone_without_parent_witness :
  @Clone host orphan
  = (Returns (Some (errorsNew "parent dir does not exist")), orphan).
Proof.
  exact (@Clone_without_parent host orphan noSuchFile eq_refl).
Defined.

(** X12 on a checkout whose commit fails: the add, the commit, no push. *)
Lemma AddCommitPush_stops_witness :
  (exists e, fst (@AddCommitPush host "wip" nothingToCommit) = Returns (Some e))
  /\ trace (sys (snd (@AddCommitPush host "wip" nothingToCommit)))
     = [gitIn "/work/tool" ["add"; "."];
        gitIn "/work/tool" ["commit"; "-m"; "wip"]].
Proof.
  destruct (@AddCommitPush_stops host "wip" nothingToCommit)
    as (t1 & e1 & st1 & E1 & _ & H).
  vm_compute in E1. injection E1 as <- <- <-. cbv beta iota in H.
  destruct H as (t2 & e2 & st2 & E2 & T2 & H).
  vm_compute in E2. injection E2 as <- <- <-. cbv beta iota in H.
  rewrite H. split; [eexists; reflexivity | exact T2].
Defined.

(** X14 with nothing cloned yet: the clone, then the set-url. *)
Lemma Clone_commands_witness :
  trace (sys (snd (@Clone host fresh)))
  = [gitIn "/work" ["clone"; toolURL; "/work/tool"];
     gitIn "/work/tool" ["remote"; "set-url"; "origin"; toolURL]].
Proof.
  destruct (@Clone_commands host fresh eq_refl)
    as (out & cerr & w & E & _ & H).
  vm_compute in E. injection E as <- <- <-. cbv beta iota in H.
  destruct H as (text & err & st2 & _ & T & ->). exact T.
Defined.

(** X15 on a checkout whose remote cannot be reached: the fetch alone,
    and the answer false. *)
Lemma IsClean_commands_witness :
  fst (@IsClean host offline) = Returns false
  /\ trace (sys (snd (@IsClean host offline)))
     = [gitIn "/work/tool" ["fetch"]].
Proof.
  destruct (@IsClean_commands host offline) as (t1 & e1 & st1 & E1 & T1 & H).
  vm_compute in E1. injection E1 as <- <- <-. cbv beta iota in H.
  rewrite H. split; [reflexivity | exact T1].
Defined.

(** X18 in a directory where the log fails: the log alone. *)
Lemma ShowDeletedFile_commands_witness :
  (exists e,
     fst (@ShowDeletedFile host "f.txt" unreadable) = Returns ("", Some e))
  /\ trace (sys (snd (@ShowDeletedFile host "f.txt" unreadable)))
     = [gitIn "/work/tool" ["log"; "--full-history"; "-2"; "--"; "f.txt"]].
Proof.
  destruct (@ShowDeletedFile_commands host "f.txt" unreadable)
    as (out & err & st1 & E1 & T1 & H).
  vm_compute in E1. injection E1 as <- <- <-. cbv beta iota in H.
  rewrite H. split; [eexists; reflexivity | exact T1].
Defined.

(** X17 on a history with one commit: [git show :f.txt]. *)
Lemma ShowDeletedFile_short_history_witness :
  trace (sys (snd (@ShowDeletedFile host "f.txt" shortLogged)))
  = [gitIn "/work/tool" ["log"; "--full-history"; "-2"; "--"; "f.txt"];
     gitIn "/work/tool" ["show"; ":f.txt"]].
Proof.
  destruct (@ShowDeletedFile_short_history host "f.txt"
              (lines ["commit abc123"; "Author: a <a@example.org>"])
              shortLogged
              (snd (@doGit host
                      ["log"; "--full-history"; "-2"; "--"; "f.txt"]
                      shortLogged))
              eq_refl (le_n 2)) as (st2 & _ & _ & T).
  exact T.
Defined.


(** X20 on three records. *)
Lemma DiffStatus_reads_back_witness :
  fst (@DiffStatus host "v1" "v2" rendered) = Returns (threeRecords, None).
Proof.
  rewrite (@DiffStatus_reads_back host "v1" "v2" rendered
             (snd (@doGit host ["diff"; "--name-status"; "v1"; "v2"] rendered))
             threeRecords eq_refl).
  - reflexivity.
  - repeat constructor; discriminate.
Defined.

(** X21 on a listing whose first starred line has no space after the
    star: the byte after the star goes with it, and later starred lines
    do not count. *)
Lemma Branch_marked_witness :
  fst (@Branch host glued) = Returns ("ain", None).
Proof.
  rewrite (@Branch_marked host glued
             (snd (@doGit host ["branch"] glued))
             (lines ["  develop"; "*main"; "* other"])
             ["  develop"] "m" "ain" ["* other"; ""] eq_refl eq_refl).
  - reflexivity.
  - intros line [<- | []]. reflexivity.
Defined.

(** X22 on a listing without a starred line. *)
Lemma Branch_unmarked_witness :
  fst (@Branch host unmarked)
  = Returns ("", Some (errorsNew "unexpected output from git command")).
Proof.
  rewrite (@Branch_unmarked host unmarked
             (snd (@doGit host ["branch"] unmarked))
             (lines ["  develop"; "  main"]) eq_refl).
  - reflexivity.
  - intros line [<- | [<- | [<- | []]]]; reflexivity.
Defined.

End MoreRuns.
